(** * Valet-parking backend: domain entities, round-robin dispatcher and
    vehicle entry use case.

    Shallow embedding of
    - src/domain/value-objects/VehicleState.ts, ValetStatus.ts
    - src/domain/entities/Vehicle.ts, Valet.ts, ParkingZone.ts
      (all concatenated in src/src/domain/entities/{Vehicle,ParkingZone}.ts)
    - src/application/use-cases/valet/AssignValetRoundRobin.ts
    - src/application/use-cases/vehicle/MarkVehicleParked.ts
    - src/application/use-cases/vehicle/CreateVehicleEntry.ts
      (concatenated in infrastructure/database/repositories/ValetRepository.ts)
    - ParkingZoneRepository, ValetRepository, VehicleRepository (the Prisma
      queries, over an in-memory table).

    Entity methods mutate [this] and may throw; a mutation performed before
    a [throw] is not rolled back.  This is modelled by a state monad whose
    error outcome keeps the state reached at the throw.  [new Date()] is an
    explicit clock argument. *)

From Stdlib Require Import String Ascii ZArith List Bool Lia Sorted Permutation.
Import ListNotations.

Local Open Scope Z_scope.

(** ** Errors thrown by the code (one constructor per [throw new Error]) *)

Inductive VehicleState :=
  | PARKING | PARKED | WAITING_MARKOUT | SCHEDULED
  | RETRIEVAL_ASSIGNED | ON_THE_WAY | DELIVERED | CLOSED.

Scheme Equality for VehicleState.

Inductive ValetStatus := FREE | BUSY | BREAK | OFF_DUTY.

Scheme Equality for ValetStatus.

Inductive Err :=
  (* VehicleStateMachine.transition *)
  | InvalidStateTransition (from to_ : VehicleState)
  (* Vehicle *)
  | CannotMarkParked (s : VehicleState)
  | CannotRequestMarkOut (s : VehicleState)
  | InvalidMarkOutTime
  | CannotAssignRetrievalValet (s : VehicleState)
  | CannotStartRetrieval (s : VehicleState)
  | RetrievalTimeNotReached
  | CannotMarkDelivered (s : VehicleState)
  | CannotClose (s : VehicleState)
  (* Valet *)
  | ValetCannotBeAssigned (name : string) (s : ValetStatus)
  | CannotCompleteTask (s : ValetStatus)
  | CannotTakeBreakWhileBusy
  | NotOnBreak (s : ValetStatus)
  | CannotGoOffDutyWhileBusy
  | NotOffDuty (s : ValetStatus)
  (* ParkingZone *)
  | NoSlotsAvailable
  | AllSlotsAlreadyFree
  (* AssignValetRoundRobinUseCase *)
  | NoActiveValets
  | NoAvailableValets
  (* MarkVehicleParkedUseCase / repositories *)
  | ValetNotFound
  (* CreateVehicleEntryUseCase *)
  | VehicleNumberRequired
  | CustomerPhoneRequired
  | InvalidPhoneNumber
  | EntryOperatorIdRequired
  | VehicleAlreadyParked (normalizedNumber : string) (token : string) (s : VehicleState)
  | NoParkingSlots.

(** ** A state monad with exceptions that keep the state reached *)

Inductive result (A : Type) : Type :=
  | Ok (a : A)
  | Throw (e : Err).
Arguments Ok {A} a.
Arguments Throw {A} e.

Definition St (S A : Type) : Type := S -> S * result A.

Definition ret {S A} (a : A) : St S A := fun s => (s, Ok a).
Definition throw {S A} (e : Err) : St S A := fun s => (s, Throw e).
Definition get {S} : St S S := fun s => (s, Ok s).
Definition put {S} (s : S) : St S unit := fun _ => (s, Ok tt).
Definition modify {S} (f : S -> S) : St S unit := fun s => (f s, Ok tt).
Definition lift {S A} (r : result A) : St S A := fun s => (s, r).
Definition bind {S A B} (m : St S A) (k : A -> St S B) : St S B :=
  fun s => let (s', r) := m s in
           match r with
           | Ok a => k a s'
           | Throw e => (s', Throw e)
           end.

Declare Scope st_scope.
Notation "x <- m ;; k" := (bind m (fun x => k))
  (at level 61, m at next level, right associativity) : st_scope.
Notation "m ;; k" := (bind m (fun _ => k))
  (at level 61, right associativity) : st_scope.
Local Open Scope st_scope.

Definition is_ok {A} (r : result A) : bool :=
  match r with Ok _ => true | Throw _ => false end.

(** ** VehicleStateMachine (VehicleState.ts) *)

Module VehicleStateMachine.

Definition transitions (s : VehicleState) : list VehicleState :=
  match s with
  | PARKING => [PARKED]
  | PARKED => [SCHEDULED; WAITING_MARKOUT]
  | WAITING_MARKOUT => [SCHEDULED]
  | SCHEDULED => [RETRIEVAL_ASSIGNED]
  | RETRIEVAL_ASSIGNED => [ON_THE_WAY]
  | ON_THE_WAY => [DELIVERED]
  | DELIVERED => [CLOSED]
  | CLOSED => []
  end.

Definition includes (l : list VehicleState) (s : VehicleState) : bool :=
  existsb (VehicleState_beq s) l.

Definition transition (currentState nextState : VehicleState)
  : result VehicleState :=
  if includes (transitions currentState) nextState
  then Ok nextState
  else Throw (InvalidStateTransition currentState nextState).

Definition canBeMarkedOut (s : VehicleState) : bool :=
  includes [PARKED; WAITING_MARKOUT] s.

Definition isReadyForRetrieval (s : VehicleState) : bool :=
  includes [SCHEDULED; RETRIEVAL_ASSIGNED] s.

End VehicleStateMachine.

(** ** Vehicle entity (Vehicle.ts).  Dates are milliseconds since the epoch. *)

Module Vehicle.
Import VehicleStateMachine.

Record Vehicle := mkVehicle {
  id : string;
  token : string;
  vehicleNumber : string;
  customerPhone : string;
  zone : string;
  slot : string;
  state : VehicleState;
  customerType : option string;
  arrivedAt : Z;
  parkedAt : option Z;
  markoutRequestedAt : option Z;
  scheduledAt : option Z;
  retrievalStartedAt : option Z;
  deliveredAt : option Z;
  closedAt : option Z;
  entryOperatorId : option string;
  parkingValetId : option string;
  retrievalValetId : option string;
  createdAt : Z;
  updatedAt : Z
}.

(** Assignments [this.f = x] to the mutable fields. *)
Definition set_state (v : Vehicle) (x : VehicleState) : Vehicle :=
  let (a, b, c, d, e, f, _, h, i, j, k, l, m, n, o, p, q, r, s, t) := v in
  mkVehicle a b c d e f x h i j k l m n o p q r s t.
Definition set_parkedAt (v : Vehicle) (x : option Z) : Vehicle :=
  let (a, b, c, d, e, f, g, h, i, _, k, l, m, n, o, p, q, r, s, t) := v in
  mkVehicle a b c d e f g h i x k l m n o p q r s t.
Definition set_markoutRequestedAt (v : Vehicle) (x : option Z) : Vehicle :=
  let (a, b, c, d, e, f, g, h, i, j, _, l, m, n, o, p, q, r, s, t) := v in
  mkVehicle a b c d e f g h i j x l m n o p q r s t.
Definition set_scheduledAt (v : Vehicle) (x : option Z) : Vehicle :=
  let (a, b, c, d, e, f, g, h, i, j, k, _, m, n, o, p, q, r, s, t) := v in
  mkVehicle a b c d e f g h i j k x m n o p q r s t.
Definition set_retrievalStartedAt (v : Vehicle) (x : option Z) : Vehicle :=
  let (a, b, c, d, e, f, g, h, i, j, k, l, _, n, o, p, q, r, s, t) := v in
  mkVehicle a b c d e f g h i j k l x n o p q r s t.
Definition set_deliveredAt (v : Vehicle) (x : option Z) : Vehicle :=
  let (a, b, c, d, e, f, g, h, i, j, k, l, m, _, o, p, q, r, s, t) := v in
  mkVehicle a b c d e f g h i j k l m x o p q r s t.
Definition set_closedAt (v : Vehicle) (x : option Z) : Vehicle :=
  let (a, b, c, d, e, f, g, h, i, j, k, l, m, n, _, p, q, r, s, t) := v in
  mkVehicle a b c d e f g h i j k l m n x p q r s t.
Definition set_retrievalValetId (v : Vehicle) (x : option string) : Vehicle :=
  let (a, b, c, d, e, f, g, h, i, j, k, l, m, n, o, p, q, _, s, t) := v in
  mkVehicle a b c d e f g h i j k l m n o p q x s t.
Definition set_updatedAt (v : Vehicle) (x : Z) : Vehicle :=
  let (a, b, c, d, e, f, g, h, i, j, k, l, m, n, o, p, q, r, s, _) := v in
  mkVehicle a b c d e f g h i j k l m n o p q r s x.

(** A method of the entity: [now] is the value of [new Date()]. *)
Definition Method := St Vehicle unit.

Definition canBeMarkedParked (v : Vehicle) : bool :=
  VehicleState_beq (state v) PARKING
  && match parkingValetId v with Some _ => true | None => false end.

Definition markAsParked (now : Z) : Method :=
  this <- get;;
  if negb (canBeMarkedParked this) then throw (CannotMarkParked (state this)) else
  s <- lift (transition (state this) PARKED);;
  modify (fun v => set_state v s);;
  modify (fun v => set_parkedAt v (Some now));;
  modify (fun v => set_updatedAt v now).

Definition canRequestMarkOut (v : Vehicle) : bool := canBeMarkedOut (state v).

Definition requestMarkOut (now : Z) (selectedMinutes : Z) : Method :=
  this <- get;;
  if negb (canRequestMarkOut this) then throw (CannotRequestMarkOut (state this)) else
  if negb (existsb (Z.eqb selectedMinutes) [5; 7; 10]) then throw InvalidMarkOutTime else
  s <- lift (transition (state this) SCHEDULED);;
  modify (fun v => set_state v s);;
  modify (fun v => set_markoutRequestedAt v (Some now));;
  modify (fun v => set_scheduledAt v (Some (now + selectedMinutes * 60 * 1000)));;
  modify (fun v => set_updatedAt v now).

Definition assignRetrievalValet (now : Z) (valetId : string) : Method :=
  this <- get;;
  if negb (isReadyForRetrieval (state this))
  then throw (CannotAssignRetrievalValet (state this)) else
  modify (fun v => set_retrievalValetId v (Some valetId));;
  this <- get;;
  s <- lift (transition (state this) RETRIEVAL_ASSIGNED);;
  modify (fun v => set_state v s);;
  modify (fun v => set_updatedAt v now).

Definition isRetrievalTimeReached (now : Z) (v : Vehicle) : bool :=
  match scheduledAt v with
  | None => false
  | Some t => t <=? now
  end.

Definition startRetrieval (now : Z) : Method :=
  this <- get;;
  if negb (isReadyForRetrieval (state this))
  then throw (CannotStartRetrieval (state this)) else
  if negb (isRetrievalTimeReached now this) then throw RetrievalTimeNotReached else
  s <- lift (transition (state this) ON_THE_WAY);;
  modify (fun v => set_state v s);;
  modify (fun v => set_retrievalStartedAt v (Some now));;
  modify (fun v => set_updatedAt v now).

Definition markAsDelivered (now : Z) : Method :=
  this <- get;;
  if negb (VehicleState_beq (state this) ON_THE_WAY)
  then throw (CannotMarkDelivered (state this)) else
  s <- lift (transition (state this) DELIVERED);;
  modify (fun v => set_state v s);;
  modify (fun v => set_deliveredAt v (Some now));;
  modify (fun v => set_updatedAt v now).

Definition close (now : Z) : Method :=
  this <- get;;
  if negb (VehicleState_beq (state this) DELIVERED)
  then throw (CannotClose (state this)) else
  s <- lift (transition (state this) CLOSED);;
  modify (fun v => set_state v s);;
  modify (fun v => set_closedAt v (Some now));;
  modify (fun v => set_updatedAt v now).

(** [getTotalDuration]: whole minutes from parking to delivery,
    [Math.floor(ms / 1000 / 60)]. *)
Definition getTotalDuration (v : Vehicle) : option Z :=
  match parkedAt v, deliveredAt v with
  | Some p, Some d => Some ((d - p) / 1000 / 60)
  | _, _ => None
  end.

(** [getRetrievalDuration]: whole minutes from the start of retrieval to
    delivery. *)
Definition getRetrievalDuration (v : Vehicle) : option Z :=
  match retrievalStartedAt v, deliveredAt v with
  | Some r, Some d => Some ((d - r) / 1000 / 60)
  | _, _ => None
  end.

(** [isOverdueForRetrieval]: SCHEDULED and more than two minutes past
    [scheduledAt]. *)
Definition isOverdueForRetrieval (now : Z) (v : Vehicle) : bool :=
  match scheduledAt v with
  | None => false
  | Some t =>
      if negb (VehicleState_beq (state v) SCHEDULED) then false else
      let overdueThreshold := 2 * 60 * 1000 in
      overdueThreshold <? now - t
  end.

(** The public mutating methods of the entity, with their arguments. *)
Inductive Op :=
  | OpMarkAsParked
  | OpRequestMarkOut (selectedMinutes : Z)
  | OpAssignRetrievalValet (valetId : string)
  | OpStartRetrieval
  | OpMarkAsDelivered
  | OpClose.

Definition run_op (now : Z) (o : Op) : Method :=
  match o with
  | OpMarkAsParked => markAsParked now
  | OpRequestMarkOut m => requestMarkOut now m
  | OpAssignRetrievalValet valetId => assignRetrievalValet now valetId
  | OpStartRetrieval => startRetrieval now
  | OpMarkAsDelivered => markAsDelivered now
  | OpClose => close now
  end.

(** A sequence of calls, each at its own time; a caller that catches an
    exception goes on with the object as the failed call left it. *)
Fixpoint run_ops (calls : list (Z * Op)) (v : Vehicle) : Vehicle :=
  match calls with
  | [] => v
  | (now, o) :: rest => run_ops rest (fst (run_op now o v))
  end.

End Vehicle.

(** ** The clock: [new Date()] as milliseconds, and as minutes since local
    midnight ([getHours() * 60 + getMinutes()]). *)

Record Clock := mkClock { nowMs : Z; nowMinutes : Z }.

(** ** Valet entity (Valet.ts, ValetStatus.ts).  [shiftStart]/[shiftEnd] are
    kept as the only thing [isInShift] reads from them: their minute of the
    day. *)

Module Valet.

Record Valet := mkValet {
  id : string;
  name : string;
  phone : string;
  status : ValetStatus;
  assignmentSequence : Z;
  todayCount : Z;
  totalCount : Z;
  employeeId : option string;
  shiftStart : option Z;
  shiftEnd : option Z;
  isActive : bool;
  createdAt : Z;
  updatedAt : Z
}.

Definition set_status (v : Valet) (x : ValetStatus) : Valet :=
  let (a, b, c, _, e, f, g, h, i, j, k, l, m) := v in
  mkValet a b c x e f g h i j k l m.
Definition set_assignmentSequence (v : Valet) (x : Z) : Valet :=
  let (a, b, c, d, _, f, g, h, i, j, k, l, m) := v in
  mkValet a b c d x f g h i j k l m.
Definition set_todayCount (v : Valet) (x : Z) : Valet :=
  let (a, b, c, d, e, _, g, h, i, j, k, l, m) := v in
  mkValet a b c d e x g h i j k l m.
Definition set_totalCount (v : Valet) (x : Z) : Valet :=
  let (a, b, c, d, e, f, _, h, i, j, k, l, m) := v in
  mkValet a b c d e f x h i j k l m.
Definition set_updatedAt (v : Valet) (x : Z) : Valet :=
  let (a, b, c, d, e, f, g, h, i, j, k, l, _) := v in
  mkValet a b c d e f g h i j k l x.

(** ValetStatusRules *)
Definition statusCanBeAssigned (s : ValetStatus) : bool :=
  ValetStatus_beq s FREE.
Definition getStatusAfterAssignment : ValetStatus := BUSY.
Definition getStatusAfterCompletion : ValetStatus := FREE.

Definition isInShift (c : Clock) (v : Valet) : bool :=
  match shiftStart v, shiftEnd v with
  | Some shiftStartMinutes, Some shiftEndMinutes =>
      let currentTime := nowMinutes c in
      if shiftEndMinutes <? shiftStartMinutes
      then (shiftStartMinutes <=? currentTime) || (currentTime <=? shiftEndMinutes)
      else (shiftStartMinutes <=? currentTime) && (currentTime <=? shiftEndMinutes)
  | _, _ => true
  end.

Definition canBeAssigned (c : Clock) (v : Valet) : bool :=
  isActive v && statusCanBeAssigned (status v) && isInShift c v.

Definition Method := St Valet unit.

Definition assignTask (c : Clock) : Method :=
  this <- get;;
  if negb (canBeAssigned c this)
  then throw (ValetCannotBeAssigned (name this) (status this)) else
  modify (fun v => set_status v getStatusAfterAssignment);;
  modify (fun v => set_assignmentSequence v (assignmentSequence v + 1));;
  modify (fun v => set_todayCount v (todayCount v + 1));;
  modify (fun v => set_totalCount v (totalCount v + 1));;
  modify (fun v => set_updatedAt v (nowMs c)).

Definition completeTask (c : Clock) : Method :=
  this <- get;;
  if negb (ValetStatus_beq (status this) BUSY)
  then throw (CannotCompleteTask (status this)) else
  modify (fun v => set_status v getStatusAfterCompletion);;
  modify (fun v => set_updatedAt v (nowMs c)).

Definition takeBreak (c : Clock) : Method :=
  this <- get;;
  if ValetStatus_beq (status this) BUSY then throw CannotTakeBreakWhileBusy else
  modify (fun v => set_status v BREAK);;
  modify (fun v => set_updatedAt v (nowMs c)).

Definition returnFromBreak (c : Clock) : Method :=
  this <- get;;
  if negb (ValetStatus_beq (status this) BREAK)
  then throw (NotOnBreak (status this)) else
  modify (fun v => set_status v FREE);;
  modify (fun v => set_updatedAt v (nowMs c)).

Definition goOffDuty (c : Clock) : Method :=
  this <- get;;
  if ValetStatus_beq (status this) BUSY then throw CannotGoOffDutyWhileBusy else
  modify (fun v => set_status v OFF_DUTY);;
  modify (fun v => set_updatedAt v (nowMs c)).

Definition startDuty (c : Clock) : Method :=
  this <- get;;
  if negb (ValetStatus_beq (status this) OFF_DUTY)
  then throw (NotOffDuty (status this)) else
  modify (fun v => set_status v FREE);;
  modify (fun v => set_updatedAt v (nowMs c)).

Definition resetDailyCounters (c : Clock) : Method :=
  modify (fun v => set_assignmentSequence v 0);;
  modify (fun v => set_todayCount v 0);;
  modify (fun v => set_updatedAt v (nowMs c)).

(** Every public mutating method of the entity. *)
Inductive Op :=
  | OpAssignTask | OpCompleteTask | OpTakeBreak | OpReturnFromBreak
  | OpGoOffDuty | OpStartDuty | OpResetDailyCounters.

Definition run_op (c : Clock) (o : Op) : Method :=
  match o with
  | OpAssignTask => assignTask c
  | OpCompleteTask => completeTask c
  | OpTakeBreak => takeBreak c
  | OpReturnFromBreak => returnFromBreak c
  | OpGoOffDuty => goOffDuty c
  | OpStartDuty => startDuty c
  | OpResetDailyCounters => resetDailyCounters c
  end.

(** A sequence of method calls, each at its own clock; an exception is
    caught and the next call runs on the object as it is. *)
Fixpoint run_ops (calls : list (Clock * Op)) (v : Valet) : Valet :=
  match calls with
  | [] => v
  | (c, o) :: rest => run_ops rest (fst (run_op c o v))
  end.

End Valet.

(** ** ParkingZone entity (ParkingZone.ts) and its repository (Prisma
    [parking_zones] table as a list of rows). *)

Module ParkingZone.

Record ParkingZone := mkParkingZone {
  id : string;
  zoneCode : string;
  totalSlots : Z;
  availableSlots : Z;
  isActive : bool;
  createdAt : option Z;
  updatedAt : option Z;
  zoneName : option string;
  zoneDescription : option string;
  priority : Z
}.

Definition set_availableSlots (z : ParkingZone) (x : Z) : ParkingZone :=
  let (a, b, c, _, e, f, g, h, i, j) := z in
  mkParkingZone a b c x e f g h i j.

Definition hasAvailability (z : ParkingZone) : bool :=
  (0 <? availableSlots z) && isActive z.

Definition Method := St ParkingZone unit.

Definition occupySlot : Method :=
  this <- get;;
  if availableSlots this <=? 0 then throw NoSlotsAvailable else
  modify (fun z => set_availableSlots z (availableSlots z - 1)).

Definition releaseSlot : Method :=
  this <- get;;
  if totalSlots this <=? availableSlots this then throw AllSlotsAlreadyFree else
  modify (fun z => set_availableSlots z (availableSlots z + 1)).

Inductive Op := OpOccupySlot | OpReleaseSlot.

Definition run_op (o : Op) : Method :=
  match o with OpOccupySlot => occupySlot | OpReleaseSlot => releaseSlot end.

(** Runs a sequence of operations; each call's exception is caught by the
    caller and the next operation runs on the zone as it is. *)
Fixpoint run_ops (ops : list Op) (z : ParkingZone) : ParkingZone :=
  match ops with
  | [] => z
  | o :: rest => run_ops rest (fst (run_op o z))
  end.

End ParkingZone.

(** ** Stable sort by a numeric key: [Array.prototype.sort] with comparator
    [(a, b) => key a - key b] (stable since ES2019), and Prisma's
    [orderBy: { key: 'asc' }] with ties in table order. *)

Section SortBy.
Context {A : Type} (key : A -> Z).

Fixpoint insert_by (x : A) (l : list A) : list A :=
  match l with
  | [] => [x]
  | y :: t => if key x <=? key y then x :: l else y :: insert_by x t
  end.

Fixpoint sort_by (l : list A) : list A :=
  match l with
  | [] => []
  | x :: t => insert_by x (sort_by t)
  end.
End SortBy.

(** ** ValetRepository over the [valet] table *)

Module ValetRepository.
Import Valet.

Definition findActive (table : list Valet) : list Valet :=
  sort_by assignmentSequence (filter isActive table).

Definition findById (table : list Valet) (valetId : string) : option Valet :=
  find (fun w => String.eqb (id w) valetId) table.

(** [prisma.valet.update({ where: { id }, data: { status,
    assignment_sequence, today_count, total_count, updated_at } })] *)
Definition update (c : Clock) (v : Valet) (table : list Valet) : list Valet :=
  map (fun w =>
         if String.eqb (id w) (id v)
         then set_updatedAt
                (set_totalCount
                   (set_todayCount
                      (set_assignmentSequence (set_status w (status v))
                         (assignmentSequence v))
                      (todayCount v))
                   (totalCount v))
                (nowMs c)
         else w) table.

(** [findMany({ orderBy: { name: 'asc' } })], names compared code unit by
    code unit. *)
Fixpoint insert_by_name (v : Valet) (l : list Valet) : list Valet :=
  match l with
  | [] => [v]
  | w :: t => if String.leb (name v) (name w) then v :: l else w :: insert_by_name v t
  end.

Definition findAll (table : list Valet) : list Valet :=
  fold_right insert_by_name [] table.

End ValetRepository.

(** ** AssignValetRoundRobinUseCase.execute over the valet table *)

Module RoundRobin.
Import Valet.

Inductive AssignmentType := PARKING_TASK | RETRIEVAL_TASK.

(** Runs an entity method on a detached object (the object read from the
    repository), as [selectedValet.assignTask()] does. *)
Definition on_object {S} (m : Valet.Method) (v : Valet) : St S Valet :=
  fun s => let (v', r) := m v in
           match r with
           | Ok _ => (s, Ok v')
           | Throw e => (s, Throw e)
           end.

Definition execute (c : Clock) (assignmentType : AssignmentType)
  : St (list Valet) Valet :=
  table <- get;;
  let allValets := ValetRepository.findActive table in
  match allValets with
  | [] => throw NoActiveValets
  | _ =>
    let availableValets := filter (canBeAssigned c) allValets in
    match sort_by assignmentSequence availableValets with
    | [] => throw NoAvailableValets
    | (first :: _) as sorted =>
      let lowestSequence := assignmentSequence first in
      let candidateValets :=
        filter (fun v => assignmentSequence v =? lowestSequence) sorted in
      let candidateValets :=
        if (1 <? length candidateValets)%nat
        then sort_by todayCount candidateValets
        else candidateValets in
      match candidateValets with
      | [] => throw NoAvailableValets (* unreachable: [first] is a candidate *)
      | selectedValet :: _ =>
        selectedValet <- on_object (assignTask c) selectedValet;;
        modify (ValetRepository.update c selectedValet);;
        ret selectedValet
      end
    end
  end.

(** Freeing a valet after its task: steps 3 and 6 of
    MarkVehicleParkedUseCase.execute ([findById], [completeTask],
    [update]). *)
Definition completeValet (c : Clock) (valetId : string) : St (list Valet) unit :=
  table <- get;;
  match ValetRepository.findById table valetId with
  | None => throw ValetNotFound
  | Some valet =>
    valet <- on_object (completeTask c) valet;;
    modify (ValetRepository.update c valet)
  end.

(** One dispatch: assign a valet, then release it through task
    completion. *)
Definition assign_then_complete (c : Clock) (t : AssignmentType)
  : St (list Valet) unit :=
  v <- execute c t;;
  completeValet c (id v).

Fixpoint run_rounds (c : Clock) (t : AssignmentType) (k : nat)
  (table : list Valet) : list Valet :=
  match k with
  | O => table
  | S k' => run_rounds c t k' (fst (assign_then_complete c t table))
  end.

(** JavaScript numbers as [getAssignmentStats] produces them: the counts are
    integers, [Math.min()] of nothing is [Infinity], [Math.max()] of
    nothing is [-Infinity]. *)
Inductive JsNum := Fin (z : Z) | PosInf | NegInf | NaN.

Definition js_sub (a b : JsNum) : JsNum :=
  match a, b with
  | Fin x, Fin y => Fin (x - y)
  | NaN, _ | _, NaN => NaN
  | PosInf, PosInf | NegInf, NegInf => NaN
  | PosInf, _ | Fin _, NegInf => PosInf
  | NegInf, _ | Fin _, PosInf => NegInf
  end.

Definition js_le (a : JsNum) (k : Z) : bool :=
  match a with Fin x => x <=? k | NegInf => true | PosInf | NaN => false end.

(** [Math.min(...xs)] and [Math.max(...xs)] on integers. *)
Definition js_min (xs : list Z) : JsNum :=
  match xs with [] => PosInf | x :: r => Fin (fold_left Z.min r x) end.
Definition js_max (xs : list Z) : JsNum :=
  match xs with [] => NegInf | x :: r => Fin (fold_left Z.max r x) end.

(** [avgCount] is [Math.round(avg * 10) / 10]; it is kept as the integer
    [Math.round(avg * 10)] (tenths), [None] for [NaN] (no valet).
    [Math.round(x) = floor(x + 1/2)], so for [n > 0] valets with total
    [s] it is [floor((20 s + n) / (2 n))]. *)
Record ValetAssignmentStats := mkStats {
  totalValets : Z;
  freeValets : Z;
  busyValets : Z;
  onBreak : Z;
  avgCountTenths : option Z;
  minCount : JsNum;
  maxCount : JsNum;
  variance : JsNum;
  isBalanced : bool
}.

Definition count_status (s : ValetStatus) (l : list Valet) : Z :=
  Z.of_nat (length (filter (fun v => ValetStatus_beq (status v) s) l)).

Definition getAssignmentStats (table : list Valet) : ValetAssignmentStats :=
  let allValets := ValetRepository.findActive table in
  let totalValets := Z.of_nat (length allValets) in
  let todayCounts := map todayCount allValets in
  let sum := fold_left Z.add todayCounts 0 in
  let avgTenths :=
    if totalValets =? 0 then None
    else Some ((20 * sum + totalValets) / (2 * totalValets)) in
  let minCount := js_min todayCounts in
  let maxCount := js_max todayCounts in
  let variance := js_sub maxCount minCount in
  mkStats totalValets (count_status FREE allValets) (count_status BUSY allValets)
    (count_status BREAK allValets) avgTenths minCount maxCount variance
    (js_le variance 2).

(** [resetDailyCounters]: every valet of [findAll] is reset and written
    back, one after the other. *)
Fixpoint reset_each (c : Clock) (vs : list Valet) : St (list Valet) unit :=
  match vs with
  | [] => ret tt
  | valet :: rest =>
      modify (ValetRepository.update c (fst (Valet.resetDailyCounters c valet)));;
      reset_each c rest
  end.

Definition resetDailyCounters (c : Clock) : St (list Valet) unit :=
  table <- get;;
  reset_each c (ValetRepository.findAll table).

(** [reassignFromValet]: the current valet's counters go down by one
    (not below 0) and are written back, its status untouched; then a valet
    is assigned as by [execute]. *)
Definition reassignFromValet (c : Clock) (valetId : string)
  (assignmentType : AssignmentType) : St (list Valet) Valet :=
  table <- get;;
  match ValetRepository.findById table valetId with
  | Some currentValet =>
      let currentValet :=
        set_todayCount currentValet (Z.max 0 (todayCount currentValet - 1)) in
      let currentValet :=
        set_assignmentSequence currentValet
          (Z.max 0 (assignmentSequence currentValet - 1)) in
      modify (ValetRepository.update c currentValet);;
      execute c assignmentType
  | None => execute c assignmentType
  end.

End RoundRobin.

(** ** The JavaScript string operations used by CreateVehicleEntryUseCase,
    on ASCII strings. *)

Module JsString.

Definition is_digit (ch : ascii) : bool :=
  let n := nat_of_ascii ch in (48 <=? n)%nat && (n <=? 57)%nat.

(** [\s]: the ASCII white-space characters (tab, LF, VT, FF, CR, space). *)
Definition is_space (ch : ascii) : bool :=
  let n := nat_of_ascii ch in ((9 <=? n)%nat && (n <=? 13)%nat) || (n =? 32)%nat.

Fixpoint filter_chars (p : ascii -> bool) (s : string) : string :=
  match s with
  | EmptyString => EmptyString
  | String ch t => if p ch then String ch (filter_chars p t) else filter_chars p t
  end.

(** [s.replace(/\D/g, '')] *)
Definition strip_non_digits (s : string) : string := filter_chars is_digit s.

(** [s.replace(/\s+/g, '')] *)
Definition strip_spaces (s : string) : string :=
  filter_chars (fun ch => negb (is_space ch)) s.

Definition upper_char (ch : ascii) : ascii :=
  let n := nat_of_ascii ch in
  if (97 <=? n)%nat && (n <=? 122)%nat then ascii_of_nat (n - 32) else ch.

Fixpoint toUpperCase (s : string) : string :=
  match s with
  | EmptyString => EmptyString
  | String ch t => String (upper_char ch) (toUpperCase t)
  end.

Fixpoint trim_start (s : string) : string :=
  match s with
  | EmptyString => EmptyString
  | String ch t => if is_space ch then trim_start t else s
  end.

Definition rev_string (s : string) : string :=
  string_of_list_ascii (rev (list_ascii_of_string s)).

Definition trim (s : string) : string :=
  rev_string (trim_start (rev_string (trim_start s))).

(** [s.slice(-k)] *)
Definition slice_last (k : nat) (s : string) : string :=
  substring (String.length s - k) k s.

(** [s.slice(0, k)] *)
Definition slice_to (k : nat) (s : string) : string := substring 0 k s.

(** [s.slice(k)] *)
Definition slice_from (k : nat) (s : string) : string :=
  substring k (String.length s - k) s.

Fixpoint zeros (n : nat) : string :=
  match n with O => EmptyString | S m => String "0"%char (zeros m) end.

(** [s.padStart(k, '0')] *)
Definition padStart (k : nat) (s : string) : string :=
  String.append (zeros (k - String.length s)) s.

Definition startsWith (s p : string) : bool := String.prefix p s.

(** [n.toString()] for an integer [n >= 0]: decimal digits, most
    significant first.  The fuel [log2 n + 1] bounds the number of
    decimal digits. *)
Definition digit (d : Z) : ascii := ascii_of_nat (48 + Z.to_nat d).

Fixpoint dec_aux (fuel : nat) (n : Z) : string :=
  match fuel with
  | O => EmptyString
  | S f =>
      String.append (if n <? 10 then EmptyString else dec_aux f (n / 10))
                    (String (digit (n mod 10)) EmptyString)
  end.

Definition toString (n : Z) : string := dec_aux (S (Z.to_nat (Z.log2 n))) n.

Fixpoint all_chars (p : ascii -> bool) (s : string) : bool :=
  match s with
  | EmptyString => true
  | String ch t => p ch && all_chars p t
  end.

End JsString.

(** ** Repositories of the [vehicles] and [parking_zones] tables *)

Module VehicleRepository.
Import Vehicle.

(** [findFirst({ where: { vehicle_number, state: { notIn: [DELIVERED,
    CLOSED] } } })] *)
Definition isActiveRecord (v : Vehicle) : bool :=
  negb (VehicleStateMachine.includes [DELIVERED; CLOSED] (state v)).

Definition findActiveByVehicleNumber (table : list Vehicle) (n : string)
  : option Vehicle :=
  find (fun v => String.eqb (vehicleNumber v) n && isActiveRecord v) table.

End VehicleRepository.

Module ParkingZoneRepository.
Import ParkingZone.

(** [findFirst({ where: { available_slots: { gt: 0 }, is_active: true },
    orderBy: { priority: 'asc' } })] *)
Definition findAvailableZone (table : list ParkingZone) : option ParkingZone :=
  match sort_by priority
          (filter (fun z => (0 <? availableSlots z) && isActive z) table) with
  | [] => None
  | z :: _ => Some z
  end.

Definition decrementAvailableSlots (zoneId : string) (table : list ParkingZone)
  : list ParkingZone :=
  map (fun z => if String.eqb (id z) zoneId
                then set_availableSlots z (availableSlots z - 1) else z) table.

Definition incrementAvailableSlots (zoneId : string) (table : list ParkingZone)
  : list ParkingZone :=
  map (fun z => if String.eqb (id z) zoneId
                then set_availableSlots z (availableSlots z + 1) else z) table.

End ParkingZoneRepository.

(** ** CreateVehicleEntryUseCase *)

Module CreateEntry.
Import JsString.

Record CreateVehicleEntryDTO := mkDTO {
  dto_vehicleNumber : string;
  dto_customerPhone : string;
  dto_customerType : option string;
  dto_entryOperatorId : option string
}.

(** The values the code draws from outside: [Date.now()] and the clock,
    [Math.floor(Math.random() * 1000)] of [generateToken],
    [Math.floor(Math.random() * 100)] of [allocateSlot], and the id the
    database gives the new row. *)
Record Entropy := mkEntropy {
  clock : Clock;
  tokenRandom : Z;
  slotRandom : Z;
  newRowId : string
}.

Record World := mkWorld {
  vehicles : list Vehicle.Vehicle;
  zones : list ParkingZone.ParkingZone;
  valets : list Valet.Valet
}.

Definition truthy (s : string) : bool :=
  match s with EmptyString => false | _ => true end.

(** [/^[6-9]\d{9}$/.test(s)] *)
Definition phoneRegexTest (s : string) : bool :=
  match s with
  | String ch rest =>
      let n := nat_of_ascii ch in
      (54 <=? n)%nat && (n <=? 57)%nat
      && (String.length rest =? 9)%nat && all_chars is_digit rest
  | EmptyString => false
  end.

Definition validateInput (dto : CreateVehicleEntryDTO) : option Err :=
  if negb (truthy (dto_vehicleNumber dto))
     || (String.length (trim (dto_vehicleNumber dto)) =? 0)%nat
  then Some VehicleNumberRequired else
  if negb (truthy (dto_customerPhone dto))
     || (String.length (trim (dto_customerPhone dto)) =? 0)%nat
  then Some CustomerPhoneRequired else
  let cleanPhone := strip_non_digits (dto_customerPhone dto) in
  if negb (phoneRegexTest cleanPhone) then Some InvalidPhoneNumber else
  match dto_entryOperatorId dto with
  | None | Some EmptyString => Some EntryOperatorIdRequired
  | Some _ => None
  end.

Definition normalizeVehicleNumber (vehicleNumber : string) : string :=
  trim (toUpperCase (strip_spaces vehicleNumber)).

Definition normalizePhoneNumber (phone : string) : string :=
  let cleaned := strip_non_digits phone in
  if startsWith cleaned "91" && (String.length cleaned =? 12)%nat
  then slice_from 2 cleaned
  else cleaned.

(** [`VLT-${timestamp}${random}`.slice(0, 12)] *)
Definition generateToken (nowMillis : Z) (rnd : Z) : string :=
  let timestamp := slice_last 6 (toString nowMillis) in
  let random := padStart 3 (toString rnd) in
  slice_to 12 (String.append "VLT-" (String.append timestamp random)).

(** [`${Math.floor(Math.random() * 100) + 1}`]; the zone code is unused. *)
Definition allocateSlot (zoneCode : string) (rnd : Z) : string :=
  toString (rnd + 1).

Record VehicleEntryResponse := mkResponse {
  resp_vehicle : Vehicle.Vehicle;
  resp_token : string;
  resp_zone : string;
  resp_slot : string;
  resp_valetId : string
}.

(** [checkDuplicateEntry] *)
Definition checkDuplicateEntry (w : World) (vehicleNumber : string) : option Err :=
  let normalizedNumber := normalizeVehicleNumber vehicleNumber in
  match VehicleRepository.findActiveByVehicleNumber (vehicles w) normalizedNumber with
  | Some existing =>
      Some (VehicleAlreadyParked normalizedNumber (Vehicle.token existing)
                                 (Vehicle.state existing))
  | None => None
  end.

(** The row [prisma.vehicles.create] stores, read back by [toDomain]: only
    token, number, phone, zone, slot, state and parking valet are written;
    the id and [created_at]/[updated_at] come from the database. *)
Definition createdRow (e : Entropy) (token number phone zone slot : string)
  (valetId : string) : Vehicle.Vehicle :=
  Vehicle.mkVehicle (newRowId e) token number phone zone slot PARKING None
    (nowMs (clock e)) None None None None None None None (Some valetId) None
    (nowMs (clock e)) (nowMs (clock e)).

Definition execute (e : Entropy) (dto : CreateVehicleEntryDTO)
  : St World VehicleEntryResponse :=
  match validateInput dto with Some err => throw err | None =>
  w <- get;;
  match checkDuplicateEntry w (dto_vehicleNumber dto) with Some err => throw err | None =>
  match ParkingZoneRepository.findAvailableZone (zones w) with
  | None => throw NoParkingSlots
  | Some zone =>
    let (valets', r) := RoundRobin.execute (clock e) RoundRobin.PARKING_TASK (valets w) in
    put (mkWorld (vehicles w) (zones w) valets');;
    valet <- lift r;;
    let token := generateToken (nowMs (clock e)) (tokenRandom e) in
    let slot := allocateSlot (ParkingZone.zoneCode zone) (slotRandom e) in
    let row := createdRow e token (normalizeVehicleNumber (dto_vehicleNumber dto))
                 (normalizePhoneNumber (dto_customerPhone dto))
                 (ParkingZone.zoneCode zone) slot (Valet.id valet) in
    modify (fun w => mkWorld (vehicles w ++ [row]) (zones w) (valets w));;
    modify (fun w => mkWorld (vehicles w)
               (ParkingZoneRepository.decrementAvailableSlots (ParkingZone.id zone) (zones w))
               (valets w));;
    ret (mkResponse row token (ParkingZone.zoneCode zone) slot (Valet.id valet))
  end end end.

End CreateEntry.

(** ** VehicleRepository.toDomain (part_002): a [vehicles] row read back as
    an entity. *)

Module VehicleRows.

Record VehicleRow := mkVehicleRow {
  row_id : string;
  row_token : string;
  row_vehicle_number : string;
  row_customer_phone : string;
  row_zone : string;
  row_slot : string;
  row_state : VehicleState;
  row_customer_type : option string;
  row_markout_requested_at : option Z;
  row_scheduled_at : option Z;
  row_retrieval_started_at : option Z;
  row_delivered_at : option Z;
  row_entry_operator_id : option string;
  row_parking_valet_id : option string;
  row_retrieval_valet_id : option string;
  row_created_at : Z;
  row_updated_at : Z
}.

Definition toDomain (r : VehicleRow) : Vehicle.Vehicle :=
  Vehicle.mkVehicle (row_id r) (row_token r) (row_vehicle_number r)
    (row_customer_phone r) (row_zone r) (row_slot r) (row_state r)
    (row_customer_type r) (row_created_at r)
    None None (row_scheduled_at r) None None None
    (row_entry_operator_id r) (row_parking_valet_id r) (row_retrieval_valet_id r)
    (row_created_at r) (row_updated_at r).

Definition set_row_state (r : VehicleRow) (s : VehicleState) : VehicleRow :=
  let (a, b, c, d, e, f, _, h, i, j, k, l, m, n, o, p, q) := r in
  mkVehicleRow a b c d e f s h i j k l m n o p q.

End VehicleRows.

(** ** MarkVehicleParkedUseCase (MarkVehicleParked.ts) over the [vehicles]
    and [valets] tables. *)

Module MarkVehicleParked.

Record World := mkWorld {
  vehicles : list VehicleRows.VehicleRow;
  valets : list Valet.Valet
}.

Inductive Error :=
  | VehicleNotFound
  | NoParkingValetAssigned
  | AssignedValetNotFound
  | DomainError (e : Err).

(** [vehicleRepo.findById]: [findUnique({ where: { id } })], the row read
    back through [toDomain]. *)
Definition findVehicleById (table : list VehicleRows.VehicleRow) (vehicleId : string)
  : option Vehicle.Vehicle :=
  option_map VehicleRows.toDomain
    (find (fun r => String.eqb (VehicleRows.row_id r) vehicleId) table).

(** [vehicleRepo.updateState]: [update({ where: { id }, data: { state } })],
    only the state column is written; the caller does not use the entity it
    returns. *)
Definition updateState (vehicleId : string) (s : VehicleState)
  (table : list VehicleRows.VehicleRow) : list VehicleRows.VehicleRow :=
  map (fun r => if String.eqb (VehicleRows.row_id r) vehicleId
                then VehicleRows.set_row_state r s else r)
    table.

(** [execute({ vehicleId })]; the optional [valetId] of the input is not
    read by the code. *)
Definition execute (c : Clock) (vehicleId : string) (w : World)
  : World * (Vehicle.Vehicle + Error) :=
  match findVehicleById (vehicles w) vehicleId with
  | None => (w, inr VehicleNotFound)
  | Some vehicle =>
    match Vehicle.parkingValetId vehicle with
    | None | Some EmptyString => (w, inr NoParkingValetAssigned)
    | Some parkingValetId =>
      match ValetRepository.findById (valets w) parkingValetId with
      | None => (w, inr AssignedValetNotFound)
      | Some valet =>
        match Vehicle.markAsParked (nowMs c) vehicle with
        | (_, Throw e) => (w, inr (DomainError e))
        | (vehicle, Ok _) =>
          let w := mkWorld (updateState (Vehicle.id vehicle) (Vehicle.state vehicle)
                              (vehicles w)) (valets w) in
          match Valet.completeTask c valet with
          | (_, Throw e) => (w, inr (DomainError e))
          | (valet, Ok _) =>
            (mkWorld (vehicles w) (ValetRepository.update c valet (valets w)), inl vehicle)
          end
        end
      end
    end
  end.

End MarkVehicleParked.



(** ** Declaration order of the [VehicleState] enum, used to measure
    progress through the lifecycle. *)

Module StateOrder.

Definition rank (s : VehicleState) : Z :=
  match s with
  | PARKING => 0 | PARKED => 1 | WAITING_MARKOUT => 2 | SCHEDULED => 3
  | RETRIEVAL_ASSIGNED => 4 | ON_THE_WAY => 5 | DELIVERED => 6 | CLOSED => 7
  end.

End StateOrder.

(** ** Staff roles and permissions (StaffRole.ts), and the permission check
    of the auth middleware (part_004) *)

Module StaffPermissions.
Local Open Scope string_scope.

Inductive StaffRole := ENTRY | EXIT | SUPERVISOR | BILLING.

Definition role_name (r : StaffRole) : string :=
  match r with
  | ENTRY => "ENTRY" | EXIT => "EXIT" | SUPERVISOR => "SUPERVISOR" | BILLING => "BILLING"
  end.

(** A [Set<string>] as the list of its elements in insertion order. *)
Definition PERMISSIONS (r : StaffRole) : list string :=
  match r with
  | ENTRY => ["vehicle.create"; "vehicle.view"; "zone.view"; "valet.view"]
  | EXIT => ["vehicle.view"; "vehicle.search"; "vehicle.markDelivered";
             "vehicle.expedite"; "markout.override"]
  | SUPERVISOR => ["vehicle.*"; "valet.*"; "zone.*"; "staff.*"; "reports.*"; "markout.*"]
  | BILLING => ["vehicle.view"; "markout.trigger"]
  end.

(** [set.has(x)] *)
Definition has (set : list string) (x : string) : bool := existsb (String.eqb x) set.

(** [s.split('.')[0]]: the characters before the first ['.']. *)
Fixpoint split_first (s : string) : string :=
  match s with
  | EmptyString => EmptyString
  | String ch t => if Ascii.eqb ch "."%char then EmptyString else String ch (split_first t)
  end.

Definition hasPermission (role : StaffRole) (permission : string) : bool :=
  let rolePermissions := PERMISSIONS role in
  let resource := split_first permission in
  let wildcardPermission := String.append resource ".*" in
  has rolePermissions permission || has rolePermissions wildcardPermission.

Definition getPermissions (role : StaffRole) : list string := PERMISSIONS role.

Definition canCreateVehicleEntry (role : StaffRole) : bool :=
  hasPermission role "vehicle.create".
Definition canMarkDelivered (role : StaffRole) : bool :=
  hasPermission role "vehicle.markDelivered".
Definition canTriggerMarkOut (role : StaffRole) : bool :=
  hasPermission role "markout.trigger".
Definition canAccessReports (role : StaffRole) : bool :=
  hasPermission role "reports.*".
Definition isSupervisor (role : StaffRole) : bool :=
  match role with SUPERVISOR => true | _ => false end.

End StaffPermissions.

Module AuthMiddleware.
Import StaffPermissions.
Local Open Scope string_scope.

(** What [rolePermissions[role]] yields on the object literal: one of the
    four sets, [undefined], or a member inherited from [Object.prototype]
    (a function, or the prototype object itself for ["__proto__"]), which
    has no [has] method. *)
Inductive Lookup := LSet (s : list string) | LUndefined | LProtoMember.

Definition object_prototype_members : list string :=
  ["constructor"; "__defineGetter__"; "__defineSetter__"; "hasOwnProperty";
   "__lookupGetter__"; "__lookupSetter__"; "isPrototypeOf"; "propertyIsEnumerable";
   "toString"; "valueOf"; "__proto__"; "toLocaleString"].

Definition rolePermissions (role : string) : Lookup :=
  if String.eqb role "ENTRY"
  then LSet ["vehicle.create"; "vehicle.view"; "zone.view"; "valet.view"] else
  if String.eqb role "EXIT"
  then LSet ["vehicle.view"; "vehicle.search"; "vehicle.markDelivered";
             "vehicle.expedite"; "markout.override"] else
  if String.eqb role "SUPERVISOR" then LSet ["*"] else
  if String.eqb role "BILLING" then LSet ["vehicle.view"; "markout.trigger"] else
  if has object_prototype_members role then LProtoMember else LUndefined.

(** [checkPermission(role, permission)]; [None] is the [TypeError] thrown by
    [permissions.has] when the lookup hits a prototype member. *)
Definition checkPermission (role permission : string) : option bool :=
  match rolePermissions role with
  | LUndefined => Some false
  | LProtoMember => None
  | LSet permissions =>
    if has permissions "*" then Some true else
    if has permissions permission then Some true else
    let resource := split_first permission in
    if has permissions (String.append resource ".*") then Some true else
    Some false
  end.

End AuthMiddleware.

(** ** Sample records *)

Module Samples.
Local Open Scope string_scope.

Definition vehicle_in (s : VehicleState) (retrievalValet : option string)
  : Vehicle.Vehicle :=
  Vehicle.mkVehicle "veh-1" "VLT-12345678" "KL07AB1234" "9876543210" "A" "7"
    s None 0 (Some 60000) (Some 120000) (Some 420000) None None None
    (Some "op-1") (Some "valet-1") retrievalValet 0 120000.

(** A stored [vehicles] row of that vehicle, with no retrieval valet. *)
Definition vehicle_row (s : VehicleState) : VehicleRows.VehicleRow :=
  VehicleRows.mkVehicleRow "veh-1" "VLT-12345678" "KL07AB1234" "9876543210" "A" "7"
    s None (Some 60000) (Some 420000) None None (Some "op-1") (Some "valet-1") None
    0 120000.

Definition clock0 : Clock := mkClock 500000 600.

Definition free_valet (valetId : string) (shift : option (Z * Z)) : Valet.Valet :=
  Valet.mkValet valetId valetId "9000000000" FREE 0 0 0 None
    (option_map fst shift) (option_map snd shift) true 0 0.

Definition three_valets : list Valet.Valet :=
  [free_valet "valet-1" None; free_valet "valet-2" (Some (540, 1020));
   free_valet "valet-3" (Some (1320, 660))].

Definition zone_a (available : Z) : ParkingZone.ParkingZone :=
  ParkingZone.mkParkingZone "zone-a" "A" 2 available true None None
    (Some "Near Shop") None 1.

Definition busy_valet : Valet.Valet :=
  Valet.mkValet "valet-1" "Ravi" "9000000000" BUSY 4 4 40 None None None true 0 0.


(** Inputs of [CreateVehicleEntryUseCase.execute]. *)
Definition entry_clock : Clock := mkClock 1760000123456 600.

Definition entropy (tokenRnd slotRnd : Z) (rowId : string) : CreateEntry.Entropy :=
  CreateEntry.mkEntropy entry_clock tokenRnd slotRnd rowId.

Definition entry_dto (plate phone : string) : CreateEntry.CreateVehicleEntryDTO :=
  CreateEntry.mkDTO plate phone None (Some "op-1").

Definition world0 : CreateEntry.World :=
  CreateEntry.mkWorld [] [zone_a 2] three_valets.


End Samples.

(** * Properties *)

(** ** Stable sort: a permutation whose head has the least key *)

Section SortByFacts.
Context {A : Type} (key : A -> Z).

Lemma insert_by_perm (x : A) (l : list A) :
  Permutation (insert_by key x l) (x :: l).
Proof.
  induction l as [|y t IH]; simpl; [reflexivity|].
  destruct (key x <=? key y); [reflexivity|].
  rewrite IH. apply perm_swap.
Qed.

Lemma sort_by_perm (l : list A) : Permutation (sort_by key l) l.
Proof.
  induction l as [|x t IH]; simpl; [reflexivity|].
  rewrite insert_by_perm. now apply perm_skip.
Qed.

Lemma in_sort_by (y : A) (l : list A) : In y (sort_by key l) <-> In y l.
Proof.
  split; apply Permutation_in; [apply sort_by_perm|symmetry; apply sort_by_perm].
Qed.

Lemma sort_by_nil (l : list A) : sort_by key l = [] -> l = [].
Proof.
  intros H. pose proof (sort_by_perm l) as P. rewrite H in P.
  now apply Permutation_nil.
Qed.

Lemma sort_by_head_min (l : list A) (h : A) (t : list A) :
  sort_by key l = h :: t -> forall y, In y l -> key h <= key y.
Proof.
  revert h t. induction l as [|x l IH]; intros h t Hs y Hy; [destruct Hy|].
  simpl in Hs. destruct (sort_by key l) as [|h' t'] eqn:Hl.
  - apply sort_by_nil in Hl. subst l. simpl in Hs. injection Hs as <- _.
    destruct Hy as [<-|[]]. lia.
  - simpl in Hs. destruct (key x <=? key h') eqn:Hc.
    + injection Hs as <- _. apply Z.leb_le in Hc.
      destruct Hy as [<-|Hy]; [lia|].
      pose proof (IH h' t' eq_refl y Hy). lia.
    + injection Hs as <- _. apply Z.leb_gt in Hc.
      destruct Hy as [<-|Hy]; [lia|].
      exact (IH h' t' eq_refl y Hy).
Qed.

End SortByFacts.

(** ** Vehicle methods *)

Module VehicleFacts.
Import VehicleStateMachine Vehicle.

(** The time gate: before [scheduledAt] every state that passes the
    retrieval guard is rejected with the vehicle untouched. *)
Lemma startRetrieval_too_early (v : Vehicle) (now t : Z) :
  isReadyForRetrieval (state v) = true -> scheduledAt v = Some t -> now < t ->
  startRetrieval now v = (v, Throw RetrievalTimeNotReached).
Proof.
  intros Hr Hs Hlt.
  destruct v as [a b c d e f g h i j k l m n o p q r s t']; simpl in *.
  subst l. assert (Hf : (t <=? now) = false) by (apply Z.leb_gt; lia).
  destruct g; try discriminate Hr; cbn; rewrite Hf; reflexivity.
Qed.

Lemma startRetrieval_from_retrieval_assigned (v : Vehicle) (now t : Z) :
  state v = RETRIEVAL_ASSIGNED -> scheduledAt v = Some t -> t <= now ->
  startRetrieval now v =
    (set_updatedAt (set_retrievalStartedAt (set_state v ON_THE_WAY) (Some now)) now,
     Ok tt).
Proof.
  intros Hst Hs Hle.
  destruct v as [a b c d e f g h i j k l m n o p q r s t']; simpl in *.
  subst g l. assert (Hf : (t <=? now) = true) by (apply Z.leb_le; lia).
  cbn. rewrite Hf. reflexivity.
Qed.

(** The other vehicle methods throw before their first write. *)
Ltac split_ifs :=
  cbv; repeat (match goal with |- context [if ?b then _ else _] => destruct b end; cbv).
Lemma markAsParked_fail_unchanged (now : Z) (v v' : Vehicle) (e : Err) :
  markAsParked now v = (v', Throw e) -> v' = v.
Proof.
  unfold markAsParked, bind, get, throw, modify, lift, canBeMarkedParked.
  destruct v as [a b c d e0 f g h i j k l m n o p q r s t]; simpl.
  destruct g, q; split_ifs; intros H; congruence.
Qed.

Lemma requestMarkOut_fail_unchanged (now mins : Z) (v v' : Vehicle) (e : Err) :
  requestMarkOut now mins v = (v', Throw e) -> v' = v.
Proof.
  unfold requestMarkOut, bind, get, throw, modify, lift, canRequestMarkOut.
  destruct v as [a b c d e0 f g h i j k l m n o p q r s t]; simpl.
  destruct g; split_ifs; intros H; congruence.
Qed.

Lemma startRetrieval_fail_unchanged (now : Z) (v v' : Vehicle) (e : Err) :
  startRetrieval now v = (v', Throw e) -> v' = v.
Proof.
  unfold startRetrieval, bind, get, throw, modify, lift.
  destruct v as [a b c d e0 f g h i j k l m n o p q r s t]; simpl.
  unfold isRetrievalTimeReached; simpl.
  destruct l as [x|]; destruct g; split_ifs; intros H; congruence.
Qed.

Lemma markAsDelivered_fail_unchanged (now : Z) (v v' : Vehicle) (e : Err) :
  markAsDelivered now v = (v', Throw e) -> v' = v.
Proof.
  unfold markAsDelivered, bind, get, throw, modify, lift.
  destruct v as [a b c d e0 f g h i j k l m n o p q r s t]; simpl.
  destruct g; split_ifs; intros H; congruence.
Qed.

Lemma close_fail_unchanged (now : Z) (v v' : Vehicle) (e : Err) :
  close now v = (v', Throw e) -> v' = v.
Proof.
  unfold close, bind, get, throw, modify, lift.
  destruct v as [a b c d e0 f g h i j k l m n o p q r s t]; simpl.
  destruct g; split_ifs; intros H; congruence.
Qed.

End VehicleFacts.

(** ** The round-robin dispatcher *)

Module RoundRobinFacts.
Import Valet.

Lemma assignTask_ok (c : Clock) (v : Valet) :
  canBeAssigned c v = true ->
  assignTask c v =
    (set_updatedAt
       (set_totalCount
          (set_todayCount
             (set_assignmentSequence (set_status v BUSY) (assignmentSequence v + 1))
             (todayCount v + 1))
          (totalCount v + 1))
       (nowMs c), Ok tt).
Proof.
  intros H. unfold assignTask, bind, get, modify, throw.
  cbn beta iota. rewrite H. destruct v; reflexivity.
Qed.

Lemma eligible_in_findActive (c : Clock) (table : list Valet) (w : Valet) :
  In w table -> canBeAssigned c w = true ->
  In w (filter (canBeAssigned c) (ValetRepository.findActive table)).
Proof.
  intros Hin Hc. apply filter_In. split; [|exact Hc].
  unfold ValetRepository.findActive. apply in_sort_by. apply filter_In.
  split; [exact Hin|]. unfold canBeAssigned in Hc.
  destruct (isActive w); [reflexivity|discriminate].
Qed.

Lemma in_findActive (table : list Valet) (w : Valet) :
  In w (ValetRepository.findActive table) -> In w table.
Proof.
  unfold ValetRepository.findActive. rewrite in_sort_by.
  intros H. apply filter_In in H. tauto.
Qed.

Lemma execute_cases (c : Clock) (t : RoundRobin.AssignmentType) (table : list Valet) :
  match RoundRobin.execute c t table with
  | (table', Ok sel) =>
      exists v0, In v0 table /\ canBeAssigned c v0 = true /\
        (forall w, In w table -> canBeAssigned c w = true ->
           assignmentSequence v0 < assignmentSequence w \/
           (assignmentSequence v0 = assignmentSequence w /\ todayCount v0 <= todayCount w)) /\
        assignTask c v0 = (sel, Ok tt) /\
        table' = ValetRepository.update c sel table
  | (table', Throw e) =>
      table' = table /\ (forall w, In w table -> canBeAssigned c w = false) /\
      (e = NoActiveValets \/ e = NoAvailableValets)
  end.
Proof.
  unfold RoundRobin.execute, bind, get, throw, ret, modify, RoundRobin.on_object.
  cbn beta iota zeta.
  destruct (ValetRepository.findActive table) as [|a0 l0] eqn:Hfa.
  - split; [reflexivity|]. split; [|left; reflexivity].
    intros w Hw. destruct (canBeAssigned c w) eqn:Hc; [exfalso|reflexivity].
    pose proof (eligible_in_findActive c table w Hw Hc) as H.
    rewrite Hfa in H. destruct H.
  - rewrite <- Hfa.
    set (avail := filter (canBeAssigned c) (ValetRepository.findActive table)).
    destruct (sort_by assignmentSequence avail) as [|first rest] eqn:Hs.
    + cbn. split; [reflexivity|]. split; [|right; reflexivity].
      intros w Hw. destruct (canBeAssigned c w) eqn:Hc; [exfalso|reflexivity].
      apply sort_by_nil in Hs.
      pose proof (eligible_in_findActive c table w Hw Hc) as H.
      fold avail in H. rewrite Hs in H. destruct H.
    + set (cand := filter (fun v => assignmentSequence v =? assignmentSequence first)
                          (first :: rest)).
      assert (Hfirst : In first cand).
      { apply filter_In. split; [left; reflexivity|]. apply Z.eqb_refl. }
      assert (Havail : forall x, In x (first :: rest) -> In x avail).
      { intros x Hx. rewrite <- Hs in Hx. now apply in_sort_by in Hx. }
      destruct (if (1 <? length cand)%nat then sort_by todayCount cand else cand)
        as [|sel0 tl] eqn:Hc.
      * exfalso. destruct (1 <? length cand)%nat.
        -- apply sort_by_nil in Hc. rewrite Hc in Hfirst. destruct Hfirst.
        -- rewrite Hc in Hfirst. destruct Hfirst.
      * assert (Hsel : In sel0 cand).
        { destruct (1 <? length cand)%nat.
          - apply (in_sort_by todayCount). rewrite Hc. left; reflexivity.
          - rewrite Hc. left; reflexivity. }
        apply filter_In in Hsel as [Hsel1 Hsel2]. apply Z.eqb_eq in Hsel2.
        apply Havail in Hsel1. apply filter_In in Hsel1 as [Hsel1 Hel].
        rewrite (assignTask_ok c sel0 Hel). cbn beta iota.
        exists sel0. split; [now apply in_findActive|]. split; [exact Hel|].
        split; [|split; [apply assignTask_ok; exact Hel|reflexivity]].
        intros w Hw Hcw.
        pose proof (eligible_in_findActive c table w Hw Hcw) as Hwa. fold avail in Hwa.
        pose proof (sort_by_head_min assignmentSequence avail first rest Hs w Hwa) as Hmin.
        destruct (Z.lt_ge_cases (assignmentSequence first) (assignmentSequence w)) as [Hlt|Hge].
        -- left. lia.
        -- right. split; [lia|].
           assert (Hwc : In w cand).
           { apply filter_In. split.
             - rewrite <- Hs. now apply in_sort_by.
             - apply Z.eqb_eq. lia. }
           destruct (1 <? length cand)%nat eqn:Hlen.
           ++ exact (sort_by_head_min todayCount cand sel0 tl Hc w Hwc).
           ++ apply Nat.ltb_ge in Hlen. rewrite Hc in Hlen, Hwc.
              destruct tl; [|simpl in Hlen; lia].
              destruct Hwc as [<-|[]]. lia.
Qed.

(** Field view of the setters. *)
Lemma set_status_eta (v : Valet) (x : ValetStatus) :
  set_status v x = mkValet (id v) (name v) (phone v) x (assignmentSequence v)
    (todayCount v) (totalCount v) (employeeId v) (shiftStart v) (shiftEnd v)
    (isActive v) (createdAt v) (updatedAt v).
Proof. destruct v; reflexivity. Qed.
Lemma set_assignmentSequence_eta (v : Valet) (x : Z) :
  set_assignmentSequence v x = mkValet (id v) (name v) (phone v) (status v) x
    (todayCount v) (totalCount v) (employeeId v) (shiftStart v) (shiftEnd v)
    (isActive v) (createdAt v) (updatedAt v).
Proof. destruct v; reflexivity. Qed.
Lemma set_todayCount_eta (v : Valet) (x : Z) :
  set_todayCount v x = mkValet (id v) (name v) (phone v) (status v)
    (assignmentSequence v) x (totalCount v) (employeeId v) (shiftStart v)
    (shiftEnd v) (isActive v) (createdAt v) (updatedAt v).
Proof. destruct v; reflexivity. Qed.
Lemma set_totalCount_eta (v : Valet) (x : Z) :
  set_totalCount v x = mkValet (id v) (name v) (phone v) (status v)
    (assignmentSequence v) (todayCount v) x (employeeId v) (shiftStart v)
    (shiftEnd v) (isActive v) (createdAt v) (updatedAt v).
Proof. destruct v; reflexivity. Qed.
Lemma set_updatedAt_eta (v : Valet) (x : Z) :
  set_updatedAt v x = mkValet (id v) (name v) (phone v) (status v)
    (assignmentSequence v) (todayCount v) (totalCount v) (employeeId v)
    (shiftStart v) (shiftEnd v) (isActive v) (createdAt v) x.
Proof. destruct v; reflexivity. Qed.

Create Rewrite HintDb valet_setters.
Hint Rewrite set_status_eta set_assignmentSequence_eta set_todayCount_eta
  set_totalCount_eta set_updatedAt_eta : valet_setters.

Ltac fields := autorewrite with valet_setters; cbn [id name phone status
  assignmentSequence todayCount totalCount employeeId shiftStart shiftEnd
  isActive createdAt updatedAt].

Lemma completeTask_ok (c : Clock) (v : Valet) :
  status v = BUSY ->
  completeTask c v = (set_updatedAt (set_status v FREE) (nowMs c), Ok tt).
Proof.
  intros H. unfold completeTask, bind, get, modify, throw.
  cbn beta iota. rewrite H. reflexivity.
Qed.

(** A row of [update c x table] is a row of [table]: untouched when its id
    differs from [x]'s, otherwise carrying [x]'s status and counters. *)
Lemma in_update (c : Clock) (x u : Valet) (table : list Valet) :
  In u (ValetRepository.update c x table) ->
  exists w, In w table /\
    ((id w <> id x /\ u = w) \/
     (id w = id x /\ id u = id w /\ isActive u = isActive w
      /\ shiftStart u = shiftStart w /\ shiftEnd u = shiftEnd w
      /\ status u = status x /\ assignmentSequence u = assignmentSequence x
      /\ todayCount u = todayCount x)).
Proof.
  unfold ValetRepository.update. intros H.
  apply in_map_iff in H as [w [Hu Hw]]. exists w. split; [exact Hw|].
  destruct (String.eqb (id w) (id x)) eqn:E.
  - right. apply String.eqb_eq in E. subst u. fields. repeat split; auto.
  - left. apply String.eqb_neq in E. auto.
Qed.

Lemma update_keeps_id (c : Clock) (x w : Valet) (table : list Valet) :
  In w table -> exists u, In u (ValetRepository.update c x table) /\ id u = id w.
Proof.
  intros Hw. unfold ValetRepository.update.
  eexists. split; [apply in_map; exact Hw|].
  destruct (String.eqb (id w) (id x)); [fields|]; reflexivity.
Qed.

Lemma isInShift_ext (c : Clock) (u w : Valet) :
  shiftStart u = shiftStart w -> shiftEnd u = shiftEnd w ->
  isInShift c u = isInShift c w.
Proof. intros Hs He. unfold isInShift. now rewrite Hs, He. Qed.

(** One assign-then-complete round keeps every valet assignable, keeps
    [assignmentSequence - todayCount] at a common value [d], and keeps any
    two [todayCount]s within 1 of each other. *)
Lemma round_preserves (c : Clock) (t : RoundRobin.AssignmentType)
  (table : list Valet) (d : Z) :
  (forall v, In v table -> canBeAssigned c v = true
                           /\ assignmentSequence v - todayCount v = d) ->
  (forall v w, In v table -> In w table -> todayCount v - todayCount w <= 1) ->
  let table2 := fst (RoundRobin.assign_then_complete c t table) in
  (forall v, In v table2 -> canBeAssigned c v = true
                            /\ assignmentSequence v - todayCount v = d)
  /\ (forall v w, In v table2 -> In w table2 -> todayCount v - todayCount w <= 1).
Proof.
  intros Hinv Hpair table2. subst table2.
  unfold RoundRobin.assign_then_complete, bind.
  pose proof (execute_cases c t table) as H.
  destruct (RoundRobin.execute c t table) as [t1 [sel|e]].
  2:{ destruct H as [-> _]. cbn. auto. }
  destruct H as (v0 & Hin & Hel & Hmin & Hassign & Ht1).
  rewrite (assignTask_ok c v0 Hel) in Hassign. injection Hassign as Hsel.
  (* the new counters of the selected valet *)
  assert (Hsel_id : id sel = id v0) by (subst sel; fields; reflexivity).
  assert (Hsel_st : status sel = BUSY) by (subst sel; fields; reflexivity).
  assert (Hsel_seq : assignmentSequence sel = assignmentSequence v0 + 1)
    by (subst sel; fields; reflexivity).
  assert (Hsel_today : todayCount sel = todayCount v0 + 1)
    by (subst sel; fields; reflexivity).
  clear Hsel.
  (* [v0] has the least todayCount *)
  assert (Hlow : forall w, In w table -> todayCount v0 <= todayCount w).
  { intros w Hw. destruct (Hinv w Hw) as [Hcw Hdw]. destruct (Hinv v0 Hin) as [_ Hd0].
    destruct (Hmin w Hw Hcw) as [Hlt|[Heq Hle]]; lia. }
  unfold RoundRobin.completeValet, bind, get, throw, modify, RoundRobin.on_object.
  cbn beta iota.
  destruct (ValetRepository.findById t1 (id sel)) as [f|] eqn:Hf.
  2:{ exfalso. unfold ValetRepository.findById in Hf.
      destruct (update_keeps_id c sel v0 table Hin) as [u [Hu Hid]].
      rewrite <- Ht1 in Hu.
      pose proof (find_none _ _ Hf u Hu) as Hn. cbn in Hn.
      rewrite Hid, Hsel_id, String.eqb_refl in Hn. discriminate. }
  unfold ValetRepository.findById in Hf.
  destruct (find_some _ _ Hf) as [Hft1 Hfid]. apply String.eqb_eq in Hfid.
  rewrite Ht1 in Hft1.
  destruct (in_update c sel f table Hft1) as [w [Hw [[Hne ->]|Hupd]]];
    [rewrite Hfid in Hne; contradiction|].
  destruct Hupd as (_ & _ & _ & _ & _ & Hfst & Hfseq & Hftoday).
  rewrite Hsel_st in Hfst.
  rewrite (completeTask_ok c f Hfst). cbn.
  set (f' := set_updatedAt (set_status f FREE) (nowMs c)).
  assert (Hf'id : id f' = id sel) by (subst f'; fields; exact Hfid).
  (* every row after the round *)
  assert (Hmem : forall u, In u (ValetRepository.update c f' t1) ->
    In u table \/
    (exists w0, In w0 table /\ isActive u = isActive w0
      /\ shiftStart u = shiftStart w0 /\ shiftEnd u = shiftEnd w0
      /\ status u = FREE /\ assignmentSequence u = assignmentSequence v0 + 1
      /\ todayCount u = todayCount v0 + 1)).
  { intros u Hu. destruct (in_update c f' u t1 Hu) as [w1 [Hw1 Hc1]].
    rewrite Ht1 in Hw1.
    destruct (in_update c sel w1 table Hw1) as [w0 [Hw0 Hc0]].
    destruct Hc1 as [[Hne1 ->]|(Hid1 & Hidu & Hact1 & Hss1 & Hse1 & Hst1 & Hseq1 & Htd1)].
    - destruct Hc0 as [[_ ->]|(Hid0 & Hidw1 & _)]; [left; exact Hw0|].
      exfalso. apply Hne1. rewrite Hf'id. congruence.
    - destruct Hc0 as [[Hne0 ->]|(Hid0 & _ & Hact0 & Hss0 & Hse0 & _)].
      + exfalso. apply Hne0. rewrite Hid1, Hf'id. reflexivity.
      + right. exists w0. split; [exact Hw0|].
        subst f'. revert Hst1 Hseq1 Htd1. fields. intros Hst1 Hseq1 Htd1.
        repeat split; congruence. }
  split.
  - intros u Hu. destruct (Hmem u Hu) as [Hold|(w0 & Hw0 & Hact & Hss & Hse & Hst & Hseq & Htd)].
    + exact (Hinv u Hold).
    + destruct (Hinv w0 Hw0) as [Hc0 _]. destruct (Hinv v0 Hin) as [_ Hd0].
      split; [|lia].
      unfold canBeAssigned in *. rewrite Hact, Hst, (isInShift_ext c u w0 Hss Hse).
      apply andb_prop in Hc0 as [Hc0 Hsh]. apply andb_prop in Hc0 as [Ha _].
      rewrite Ha, Hsh. reflexivity.
  - intros u u' Hu Hu'.
    destruct (Hmem u Hu) as [Hold|(w0 & Hw0 & _ & _ & _ & _ & _ & Htd)];
    destruct (Hmem u' Hu') as [Hold'|(w0' & Hw0' & _ & _ & _ & _ & _ & Htd')].
    + exact (Hpair u u' Hold Hold').
    + pose proof (Hpair u v0 Hold Hin). pose proof (Hlow u Hold). lia.
    + pose proof (Hpair u' v0 Hold' Hin). pose proof (Hlow u' Hold'). lia.
    + lia.
Qed.

End RoundRobinFacts.


(** ** Strings: decimal rendering, slices and padding *)

Module JsStringFacts.
Import JsString.

Lemma all_chars_append (p : ascii -> bool) (s1 s2 : string) :
  all_chars p (String.append s1 s2) = all_chars p s1 && all_chars p s2.
Proof.
  induction s1 as [|ch s1 IH]; cbn; [reflexivity|].
  rewrite IH. apply andb_assoc.
Qed.

Lemma length_append (s1 s2 : string) :
  String.length (String.append s1 s2) = (String.length s1 + String.length s2)%nat.
Proof. induction s1 as [|ch s1 IH]; cbn; congruence. Qed.

Lemma digit_is_digit (d : Z) : 0 <= d < 10 -> is_digit (digit d) = true.
Proof.
  intros Hd. unfold is_digit, digit.
  rewrite nat_ascii_embedding by lia.
  apply andb_true_intro. split; apply Nat.leb_le; lia.
Qed.

Lemma dec_aux_digits (fuel : nat) (n : Z) :
  0 <= n -> all_chars is_digit (dec_aux fuel n) = true.
Proof.
  revert n. induction fuel as [|f IH]; intros n Hn; [reflexivity|].
  cbn [dec_aux]. rewrite all_chars_append. apply andb_true_intro. split.
  - destruct (n <? 10); [reflexivity|]. apply IH. apply Z.div_pos; lia.
  - cbn [all_chars]. rewrite digit_is_digit by (apply Z.mod_pos_bound; lia). reflexivity.
Qed.

Lemma dec_aux_length_le (fuel : nat) (n : Z) (k : nat) :
  0 <= n < 10 ^ Z.of_nat (S k) -> (String.length (dec_aux fuel n) <= S k)%nat.
Proof.
  revert n k. induction fuel as [|f IH]; intros n k Hn; cbn [dec_aux]; [cbn; lia|].
  rewrite length_append. cbn [String.length].
  destruct (n <? 10) eqn:E; [cbn; lia|]. apply Z.ltb_ge in E.
  destruct k as [|k].
  - cbn in Hn. lia.
  - enough (String.length (dec_aux f (n / 10)) <= S k)%nat by lia.
    apply IH. split; [apply Z.div_pos; lia|].
    apply Z.div_lt_upper_bound; [lia|].
    replace (Z.of_nat (S (S k))) with (Z.succ (Z.of_nat (S k))) in Hn by lia.
    rewrite Z.pow_succ_r in Hn by lia. lia.
Qed.

Lemma dec_aux_length_ge (fuel : nat) (n : Z) (k : nat) :
  (k < fuel)%nat -> 10 ^ Z.of_nat k <= n -> (S k <= String.length (dec_aux fuel n))%nat.
Proof.
  revert n k. induction fuel as [|f IH]; intros n k Hk Hn; [lia|].
  cbn [dec_aux]. rewrite length_append. cbn [String.length].
  destruct k as [|k]; [lia|].
  replace (Z.of_nat (S k)) with (Z.succ (Z.of_nat k)) in Hn by lia.
  rewrite Z.pow_succ_r in Hn by lia.
  assert (Hp : 0 < 10 ^ Z.of_nat k) by (apply Z.pow_pos_nonneg; lia).
  destruct (n <? 10) eqn:E; [apply Z.ltb_lt in E; lia|].
  enough (S k <= String.length (dec_aux f (n / 10)))%nat by lia.
  apply IH; [lia|]. apply Z.div_le_lower_bound; lia.
Qed.

Lemma toString_digits (n : Z) : 0 <= n -> all_chars is_digit (toString n) = true.
Proof. apply dec_aux_digits. Qed.

Lemma toString_length_ge6 (n : Z) : 100000 <= n -> (6 <= String.length (toString n))%nat.
Proof.
  intros Hn. unfold toString. apply (dec_aux_length_ge _ n 5); [|cbn; lia].
  assert (Hl : Z.log2 100000 <= Z.log2 n) by (apply Z.log2_le_mono; lia).
  change (Z.log2 100000) with 16 in Hl. lia.
Qed.

Lemma toString_length_le3 (n : Z) : 0 <= n < 1000 -> (String.length (toString n) <= 3)%nat.
Proof. intros Hn. apply (dec_aux_length_le _ n 2). cbn. lia. Qed.

Lemma substring_length (n m : nat) (s : string) :
  (n + m <= String.length s)%nat -> String.length (substring n m s) = m.
Proof.
  revert n m. induction s as [|ch s IH]; intros n m H.
  - cbn in H. assert (n = 0%nat /\ m = 0%nat) as [-> ->] by lia. reflexivity.
  - destruct n as [|n]; destruct m as [|m]; cbn in H |- *; try reflexivity.
    + f_equal. apply (IH 0%nat). lia.
    + apply IH. lia.
    + apply IH. lia.
Qed.

Lemma substring_all_chars (p : ascii -> bool) (n m : nat) (s : string) :
  all_chars p s = true -> all_chars p (substring n m s) = true.
Proof.
  revert n m. induction s as [|ch s IH]; intros n m H.
  - destruct n, m; reflexivity.
  - cbn in H. apply andb_prop in H as [Hc Hs].
    destruct n as [|n]; destruct m as [|m]; cbn; try reflexivity.
    + rewrite Hc. apply (IH 0%nat). exact Hs.
    + apply IH. exact Hs.
    + apply IH. exact Hs.
Qed.

Lemma zeros_props (k : nat) :
  String.length (zeros k) = k /\ all_chars is_digit (zeros k) = true.
Proof. induction k as [|k [IH1 IH2]]; cbn; [split; reflexivity|]. rewrite IH2. auto. Qed.

Lemma padStart3_props (s : string) :
  (String.length s <= 3)%nat -> all_chars is_digit s = true ->
  String.length (padStart 3 s) = 3%nat /\ all_chars is_digit (padStart 3 s) = true.
Proof.
  intros Hl Hd. unfold padStart. destruct (zeros_props (3 - String.length s)) as [Z1 Z2].
  rewrite length_append, all_chars_append, Z1, Z2, Hd. split; [lia|reflexivity].
Qed.

Lemma filter_chars_id (p : ascii -> bool) (s : string) :
  all_chars p s = true -> filter_chars p s = s.
Proof.
  induction s as [|ch s IH]; cbn; [reflexivity|].
  intros H. apply andb_prop in H as [Hc Hs]. rewrite Hc, IH by exact Hs. reflexivity.
Qed.

End JsStringFacts.

(** ** CreateVehicleEntryUseCase *)

Module CreateEntryFacts.
Import CreateEntry JsString JsStringFacts.

Lemma execute_eq (e : Entropy) (dto : CreateVehicleEntryDTO) (w : World) :
  execute e dto w =
  match validateInput dto with
  | Some err => (w, Throw err)
  | None =>
    match checkDuplicateEntry w (dto_vehicleNumber dto) with
    | Some err => (w, Throw err)
    | None =>
      match ParkingZoneRepository.findAvailableZone (zones w) with
      | None => (w, Throw NoParkingSlots)
      | Some zone =>
        let (valets', r) := RoundRobin.execute (clock e) RoundRobin.PARKING_TASK (valets w) in
        match r with
        | Throw err => (mkWorld (vehicles w) (zones w) valets', Throw err)
        | Ok valet =>
          let token := generateToken (nowMs (clock e)) (tokenRandom e) in
          let slot := allocateSlot (ParkingZone.zoneCode zone) (slotRandom e) in
          let row := createdRow e token (normalizeVehicleNumber (dto_vehicleNumber dto))
                       (normalizePhoneNumber (dto_customerPhone dto))
                       (ParkingZone.zoneCode zone) slot (Valet.id valet) in
          (mkWorld (vehicles w ++ [row])
             (ParkingZoneRepository.decrementAvailableSlots (ParkingZone.id zone) (zones w))
             valets',
           Ok (mkResponse row token (ParkingZone.zoneCode zone) slot (Valet.id valet)))
        end
      end
    end
  end.
Proof.
  unfold execute, bind, get, throw, put, lift, modify, ret.
  destruct (validateInput dto); [reflexivity|].
  destruct (checkDuplicateEntry w _); [reflexivity|].
  destruct (ParkingZoneRepository.findAvailableZone (zones w)); [|reflexivity].
  destruct (RoundRobin.execute _ _ _) as [vs [v|err]]; reflexivity.
Qed.

Lemma execute_ok_response (e : Entropy) (dto : CreateVehicleEntryDTO) (w w' : World)
  (resp : VehicleEntryResponse) :
  execute e dto w = (w', Ok resp) ->
  resp_token resp = generateToken (nowMs (clock e)) (tokenRandom e) /\
  (exists zone, resp_slot resp = allocateSlot (ParkingZone.zoneCode zone) (slotRandom e)) /\
  vehicles w' = vehicles w ++ [resp_vehicle resp] /\
  Vehicle.slot (resp_vehicle resp) = resp_slot resp.
Proof.
  rewrite execute_eq.
  destruct (validateInput dto); [discriminate|].
  destruct (checkDuplicateEntry w _); [discriminate|].
  destruct (ParkingZoneRepository.findAvailableZone (zones w)) as [zone|]; [|discriminate].
  destruct (RoundRobin.execute _ _ _) as [vs [v|err]]; [|discriminate].
  intros H. injection H as <- <-. cbn. eauto.
Qed.

Lemma generateToken_shape (ts rnd : Z) :
  100000 <= ts -> 0 <= rnd < 1000 ->
  exists d, generateToken ts rnd = String.append "VLT-" d /\
            String.length d = 8%nat /\ all_chars is_digit d = true.
Proof.
  intros Hts Hr. unfold generateToken, slice_to, slice_last.
  set (T := toString ts). set (P := padStart 3 (toString rnd)).
  set (s6 := substring (String.length T - 6) 6 T).
  assert (HT : (6 <= String.length T)%nat) by apply (toString_length_ge6 _ Hts).
  assert (Hs6 : String.length s6 = 6%nat) by (apply substring_length; lia).
  assert (Ds6 : all_chars is_digit s6 = true)
    by (apply substring_all_chars, toString_digits; lia).
  destruct (padStart3_props (toString rnd)) as [HP DP];
    [apply toString_length_le3; lia | apply toString_digits; lia |].
  fold P in HP, DP.
  exists (substring 0 8 (String.append s6 P)). split; [reflexivity|]. split.
  - apply substring_length. rewrite length_append. lia.
  - apply substring_all_chars. rewrite all_chars_append, Ds6, DP. reflexivity.
Qed.

Lemma toString_range (k : Z) :
  0 <= k < 100 -> exists j, 1 <= j <= 100 /\ toString (k + 1) = toString j.
Proof. intros Hk. exists (k + 1). split; [lia | reflexivity]. Qed.

(** [trim] of a string starting with a non-space character is not empty. *)
Lemma string_of_list_length (l : list ascii) :
  String.length (string_of_list_ascii l) = List.length l.
Proof. induction l as [|a l IH]; cbn; congruence. Qed.

Lemma list_of_string_length (s : string) :
  List.length (list_ascii_of_string s) = String.length s.
Proof. induction s as [|a s IH]; cbn; congruence. Qed.

Lemma rev_string_length (s : string) : String.length (rev_string s) = String.length s.
Proof.
  unfold rev_string. rewrite string_of_list_length, length_rev.
  apply list_of_string_length.
Qed.

Lemma trim_start_app_nonspace (l : list ascii) (ch : ascii) :
  is_space ch = false -> trim_start (string_of_list_ascii (l ++ [ch])) <> EmptyString.
Proof.
  intros Hch. induction l as [|a l IH]; cbn.
  - rewrite Hch. discriminate.
  - destruct (is_space a); [exact IH | discriminate].
Qed.

Lemma trim_nonempty (ch : ascii) (t : string) :
  is_space ch = false -> String.length (trim (String ch t)) <> 0%nat.
Proof.
  intros Hch. unfold trim. cbn [trim_start]. rewrite Hch, rev_string_length.
  unfold rev_string. cbn [list_ascii_of_string rev].
  intros Hl. apply (trim_start_app_nonspace (rev (list_ascii_of_string t)) ch Hch).
  destruct (trim_start _); [reflexivity | discriminate].
Qed.

Lemma phoneRegexTest_digits (m : string) :
  phoneRegexTest m = true -> all_chars is_digit m = true /\ String.length m = 10%nat.
Proof.
  destruct m as [|ch rest]; [discriminate|]. cbn [phoneRegexTest].
  intros H. apply andb_prop in H as [H Hd]. apply andb_prop in H as [H Hl].
  apply andb_prop in H as [H1 H2]. apply Nat.leb_le in H1, H2. apply Nat.eqb_eq in Hl.
  cbn. rewrite Hd, Hl. split; [|reflexivity].
  unfold is_digit. replace ((48 <=? nat_of_ascii ch)%nat) with true
    by (symmetry; apply Nat.leb_le; lia).
  replace ((nat_of_ascii ch <=? 57)%nat) with true by (symmetry; apply Nat.leb_le; lia).
  reflexivity.
Qed.




End CreateEntryFacts.
(** * The claims *)

Local Open Scope string_scope.
Local Open Scope Z_scope.

(** C1: a SCHEDULED vehicle whose retrieval time has come does not reach
    ON_THE_WAY: [startRetrieval] passes the [isReadyForRetrieval] guard and
    the time gate, and then [VehicleStateMachine.transition] rejects
    SCHEDULED -> ON_THE_WAY (the table only allows SCHEDULED ->
    RETRIEVAL_ASSIGNED); the vehicle is left unchanged. *)
Theorem startRetrieval_scheduled_rejected (v : Vehicle.Vehicle) (now t : Z) :
  Vehicle.state v = SCHEDULED -> Vehicle.scheduledAt v = Some t -> t <= now ->
  Vehicle.startRetrieval now v = (v, Throw (InvalidStateTransition SCHEDULED ON_THE_WAY)).
Proof.
  intros Hst Hs Hle.
  destruct v as [a b c d e f g h i j k l m n o p q r s t']; simpl in *.
  subst g l. assert (Hf : (t <=? now)%Z = true) by (apply Z.leb_le; lia).
  cbn. rewrite Hf. reflexivity.
Qed.

Lemma startRetrieval_scheduled_rejected_witness :
  Vehicle.state (Samples.vehicle_in SCHEDULED None) = SCHEDULED
  /\ Vehicle.scheduledAt (Samples.vehicle_in SCHEDULED None) = Some 420000
  /\ 420000 <= 500000
  /\ Vehicle.startRetrieval 500000 (Samples.vehicle_in SCHEDULED None)
     = (Samples.vehicle_in SCHEDULED None,
        Throw (InvalidStateTransition SCHEDULED ON_THE_WAY)).
Proof.
  split; [reflexivity|]. split; [reflexivity|]. split; [lia|].
  apply (startRetrieval_scheduled_rejected _ 500000 420000); [reflexivity|reflexivity|lia].
Defined.

(** C2: [assignRetrievalValet] on a vehicle already in RETRIEVAL_ASSIGNED
    writes [retrievalValetId] and only then throws from
    [VehicleStateMachine.transition] (RETRIEVAL_ASSIGNED -> RETRIEVAL_ASSIGNED
    is not in the table): the failed call leaves the new valet id behind. *)
Theorem assignRetrievalValet_writes_before_throw
  (v : Vehicle.Vehicle) (now : Z) (valetId : string) :
  Vehicle.state v = RETRIEVAL_ASSIGNED ->
  Vehicle.assignRetrievalValet now valetId v
  = (Vehicle.set_retrievalValetId v (Some valetId),
     Throw (InvalidStateTransition RETRIEVAL_ASSIGNED RETRIEVAL_ASSIGNED)).
Proof.
  intros Hst.
  destruct v as [a b c d e f g h i j k l m n o p q r s t']; simpl in *.
  subst g. reflexivity.
Qed.

Lemma assignRetrievalValet_writes_before_throw_witness :
  Vehicle.state (Samples.vehicle_in RETRIEVAL_ASSIGNED (Some "valet-1"))
    = RETRIEVAL_ASSIGNED
  /\ Vehicle.assignRetrievalValet 500000 "valet-2"
       (Samples.vehicle_in RETRIEVAL_ASSIGNED (Some "valet-1"))
     = (Samples.vehicle_in RETRIEVAL_ASSIGNED (Some "valet-2"),
        Throw (InvalidStateTransition RETRIEVAL_ASSIGNED RETRIEVAL_ASSIGNED)).
Proof.
  split; [reflexivity|].
  exact (assignRetrievalValet_writes_before_throw
           (Samples.vehicle_in RETRIEVAL_ASSIGNED (Some "valet-1")) 500000 "valet-2"
           eq_refl).
Defined.

(** C3: [AssignValetRoundRobinUseCase.execute] either selects, among the
    valets that are FREE, active and in shift, one with the lowest
    [assignmentSequence] and, among those, the lowest [todayCount]; the
    selected valet gets [assignTask] (sequence, today and total counters + 1,
    status BUSY) and only the rows with its id are rewritten; or no valet is
    eligible, the call throws a no-valet error and the table is untouched. *)
Theorem assign_round_robin (c : Clock) (t : RoundRobin.AssignmentType)
  (table : list Valet.Valet) :
  match RoundRobin.execute c t table with
  | (table', Ok sel) =>
      exists v0, In v0 table /\ Valet.canBeAssigned c v0 = true
      /\ (forall w, In w table -> Valet.canBeAssigned c w = true ->
            Valet.assignmentSequence v0 < Valet.assignmentSequence w
            \/ (Valet.assignmentSequence v0 = Valet.assignmentSequence w
                /\ Valet.todayCount v0 <= Valet.todayCount w))
      /\ Valet.id sel = Valet.id v0
      /\ Valet.status sel = BUSY
      /\ Valet.assignmentSequence sel = Valet.assignmentSequence v0 + 1
      /\ Valet.todayCount sel = Valet.todayCount v0 + 1
      /\ Valet.totalCount sel = Valet.totalCount v0 + 1
      /\ table' = ValetRepository.update c sel table
      /\ (forall i w, nth_error table i = Some w -> Valet.id w <> Valet.id v0 ->
            nth_error table' i = Some w)
  | (table', Throw e) =>
      table' = table
      /\ (forall w, In w table -> Valet.canBeAssigned c w = false)
      /\ (e = NoActiveValets \/ e = NoAvailableValets)
  end.
Proof.
  pose proof (RoundRobinFacts.execute_cases c t table) as H.
  destruct (RoundRobin.execute c t table) as [table' [sel|e]]; [|exact H].
  destruct H as (v0 & Hin & Hel & Hmin & Hassign & Htable).
  rewrite (RoundRobinFacts.assignTask_ok c v0 Hel) in Hassign.
  injection Hassign as Hsel. subst sel.
  exists v0. split; [exact Hin|]. split; [exact Hel|]. split; [exact Hmin|].
  destruct v0 as [a b c0 d e f g h i j k l m]; cbn.
  repeat split; try reflexivity; [exact Htable|].
  intros n w Hn Hid. subst table'. unfold ValetRepository.update.
  rewrite nth_error_map, Hn. cbn.
  destruct (String.eqb (Valet.id w) a) eqn:E; [|reflexivity].
  apply String.eqb_eq in E. contradiction.
Qed.

Lemma run_rounds_preserves (c : Clock) (t : RoundRobin.AssignmentType) (d : Z) (K : nat) :
  forall table : list Valet.Valet,
  (forall v, In v table -> Valet.canBeAssigned c v = true
                           /\ Valet.assignmentSequence v - Valet.todayCount v = d) ->
  (forall v w, In v table -> In w table -> Valet.todayCount v - Valet.todayCount w <= 1) ->
  (forall v w, In v (RoundRobin.run_rounds c t K table) ->
               In w (RoundRobin.run_rounds c t K table) ->
               Valet.todayCount v - Valet.todayCount w <= 1).
Proof.
  induction K as [|K IH]; intros table Hinv Hpair; [exact Hpair|].
  cbn [RoundRobin.run_rounds].
  destruct (RoundRobinFacts.round_preserves c t table d Hinv Hpair) as [Hinv' Hpair'].
  exact (IH _ Hinv' Hpair').
Qed.

(** C6: starting from N >= 1 valets that are all FREE, active and in shift
    with equal [assignmentSequence] and equal [todayCount], after any number
    K of rounds "assign ([execute]) then free the assigned valet
    ([findById], [completeTask], [update])" at a fixed clock, any two
    [todayCount]s differ by at most 1. *)
Theorem round_robin_fair (c : Clock) (t : RoundRobin.AssignmentType)
  (table : list Valet.Valet) (K : nat) :
  table <> [] ->
  (forall v, In v table -> Valet.status v = FREE /\ Valet.isActive v = true
                           /\ Valet.isInShift c v = true) ->
  (forall v w, In v table -> In w table ->
     Valet.assignmentSequence v = Valet.assignmentSequence w
     /\ Valet.todayCount v = Valet.todayCount w) ->
  forall v w, In v (RoundRobin.run_rounds c t K table) ->
              In w (RoundRobin.run_rounds c t K table) ->
              Z.abs (Valet.todayCount v - Valet.todayCount w) <= 1.
Proof.
  intros Hne Hfree Heq.
  destruct table as [|v1 rest]; [contradiction|].
  set (d := Valet.assignmentSequence v1 - Valet.todayCount v1).
  assert (Hinv : forall v, In v (v1 :: rest) ->
            Valet.canBeAssigned c v = true
            /\ Valet.assignmentSequence v - Valet.todayCount v = d).
  { intros v Hv. destruct (Hfree v Hv) as (Hs & Ha & Hsh).
    destruct (Heq v v1 Hv (or_introl eq_refl)) as [E1 E2].
    split; [|subst d; lia].
    unfold Valet.canBeAssigned, Valet.statusCanBeAssigned. rewrite Hs, Ha, Hsh.
    reflexivity. }
  assert (Hpair : forall v w, In v (v1 :: rest) -> In w (v1 :: rest) ->
            Valet.todayCount v - Valet.todayCount w <= 1).
  { intros v w Hv Hw. destruct (Heq v w Hv Hw) as [_ E]. lia. }
  intros v w Hv Hw.
  pose proof (run_rounds_preserves c t d K _ Hinv Hpair v w Hv Hw).
  pose proof (run_rounds_preserves c t d K _ Hinv Hpair w v Hw Hv).
  apply Z.abs_le. lia.
Qed.

Lemma round_robin_fair_witness :
  Samples.three_valets <> []
  /\ (forall v, In v Samples.three_valets ->
        Valet.status v = FREE /\ Valet.isActive v = true
        /\ Valet.isInShift Samples.clock0 v = true)
  /\ (forall v w, In v Samples.three_valets -> In w Samples.three_valets ->
        Valet.assignmentSequence v = Valet.assignmentSequence w
        /\ Valet.todayCount v = Valet.todayCount w)
  /\ (forall v w,
        In v (RoundRobin.run_rounds Samples.clock0 RoundRobin.PARKING_TASK 7
                Samples.three_valets) ->
        In w (RoundRobin.run_rounds Samples.clock0 RoundRobin.PARKING_TASK 7
                Samples.three_valets) ->
        Z.abs (Valet.todayCount v - Valet.todayCount w) <= 1).
Proof.
  assert (H1 : Samples.three_valets <> []) by discriminate.
  assert (H2 : forall v, In v Samples.three_valets ->
        Valet.status v = FREE /\ Valet.isActive v = true
        /\ Valet.isInShift Samples.clock0 v = true).
  { intros v Hv. cbn in Hv.
    destruct Hv as [<-|[<-|[<-|[]]]]; vm_compute; auto. }
  assert (H3 : forall v w, In v Samples.three_valets -> In w Samples.three_valets ->
        Valet.assignmentSequence v = Valet.assignmentSequence w
        /\ Valet.todayCount v = Valet.todayCount w).
  { intros v w Hv Hw. cbn in Hv, Hw.
    destruct Hv as [<-|[<-|[<-|[]]]]; destruct Hw as [<-|[<-|[<-|[]]]];
      vm_compute; auto. }
  split; [exact H1|]. split; [exact H2|]. split; [exact H3|].
  exact (round_robin_fair Samples.clock0 RoundRobin.PARKING_TASK
           Samples.three_valets 7 H1 H2 H3).
Defined.

(** C4: [ParkingZoneRepository.incrementAvailableSlots] and
    [decrementAvailableSlots], the slot operations of [IParkingZoneRepository],
    check no bound: on a zone whose slots are all free, the release returns
    normally and leaves [availableSlots = totalSlots + 1]; on a zone with no
    free slot, the decrement returns normally and leaves [availableSlots = -1].
    Neither fails, and no over-release error exists on this path. *)
Theorem zone_repository_slots_unbounded (zid : string)
  (table : list ParkingZone.ParkingZone) (z : ParkingZone.ParkingZone) :
  In z table -> ParkingZone.id z = zid ->
  (ParkingZone.availableSlots z = ParkingZone.totalSlots z ->
   exists z', In z' (ParkingZoneRepository.incrementAvailableSlots zid table) /\
     ParkingZone.id z' = zid /\ ParkingZone.totalSlots z' = ParkingZone.totalSlots z /\
     ParkingZone.availableSlots z' = ParkingZone.totalSlots z' + 1) /\
  (ParkingZone.availableSlots z = 0 ->
   exists z', In z' (ParkingZoneRepository.decrementAvailableSlots zid table) /\
     ParkingZone.id z' = zid /\ ParkingZone.totalSlots z' = ParkingZone.totalSlots z /\
     ParkingZone.availableSlots z' = -1).
Proof.
  intros Hin Hid. split; intros Hav.
  - exists (ParkingZone.set_availableSlots z (ParkingZone.availableSlots z + 1)).
    split.
    + unfold ParkingZoneRepository.incrementAvailableSlots.
      apply in_map_iff. exists z. split; [|exact Hin].
      rewrite Hid, String.eqb_refl. reflexivity.
    + destruct z as [a b tot av e f g h i j]; cbn in Hid, Hav |- *.
      split; [exact Hid|]. split; [reflexivity|]. lia.
  - exists (ParkingZone.set_availableSlots z (ParkingZone.availableSlots z - 1)).
    split.
    + unfold ParkingZoneRepository.decrementAvailableSlots.
      apply in_map_iff. exists z. split; [|exact Hin].
      rewrite Hid, String.eqb_refl. reflexivity.
    + destruct z as [a b tot av e f g h i j]; cbn in Hid, Hav |- *.
      split; [exact Hid|]. split; [reflexivity|]. lia.
Qed.

Lemma zone_repository_slots_unbounded_witness :
  (In (Samples.zone_a 2) [Samples.zone_a 2] /\
   ParkingZone.id (Samples.zone_a 2) = "zone-a"%string /\
   ParkingZone.availableSlots (Samples.zone_a 2) = ParkingZone.totalSlots (Samples.zone_a 2) /\
   exists z', In z' (ParkingZoneRepository.incrementAvailableSlots "zone-a" [Samples.zone_a 2]) /\
     ParkingZone.id z' = "zone-a"%string /\ ParkingZone.totalSlots z' = 2 /\
     ParkingZone.availableSlots z' = 3) /\
  (In (Samples.zone_a 0) [Samples.zone_a 0] /\
   ParkingZone.id (Samples.zone_a 0) = "zone-a"%string /\
   ParkingZone.availableSlots (Samples.zone_a 0) = 0 /\
   exists z', In z' (ParkingZoneRepository.decrementAvailableSlots "zone-a" [Samples.zone_a 0]) /\
     ParkingZone.id z' = "zone-a"%string /\ ParkingZone.totalSlots z' = 2 /\
     ParkingZone.availableSlots z' = -1).
Proof.
  split.
  - split; [left; reflexivity|]. split; [reflexivity|]. split; [reflexivity|].
    destruct (proj1 (zone_repository_slots_unbounded "zone-a" [Samples.zone_a 2]
                      (Samples.zone_a 2) (or_introl eq_refl) eq_refl) eq_refl)
      as (z' & H1 & H2 & H3 & H4).
    exists z'. split; [exact H1|]. split; [exact H2|]. cbn in H3. split; lia.
  - split; [left; reflexivity|]. split; [reflexivity|]. split; [reflexivity|].
    destruct (proj2 (zone_repository_slots_unbounded "zone-a" [Samples.zone_a 0]
                      (Samples.zone_a 0) (or_introl eq_refl) eq_refl) eq_refl)
      as (z' & H1 & H2 & H3 & H4).
    exists z'. split; [exact H1|]. split; [exact H2|]. cbn in H3. split; lia.
Defined.

(** C10: a BUSY valet refuses [takeBreak] and [goOffDuty] and is left
    unchanged; of all the entity's operations, the only one after which a
    BUSY valet is no longer BUSY is [completeTask], which makes it FREE. *)
Theorem busy_leaves_only_by_completeTask (c : Clock) (v : Valet.Valet) :
  Valet.status v = BUSY ->
  Valet.takeBreak c v = (v, Throw CannotTakeBreakWhileBusy)
  /\ Valet.goOffDuty c v = (v, Throw CannotGoOffDutyWhileBusy)
  /\ (forall o, Valet.status (fst (Valet.run_op c o v)) = BUSY
                \/ (o = Valet.OpCompleteTask
                    /\ Valet.status (fst (Valet.run_op c o v)) = FREE)).
Proof.
  intros Hb. destruct v as [a b c0 st e f g h i j k l m]; cbn in Hb. subst st.
  split; [reflexivity|]. split; [reflexivity|].
  intros o. destruct o; cbn; [left|right|left|left|left|left|left]; try reflexivity.
  - unfold Valet.canBeAssigned, Valet.statusCanBeAssigned. cbn.
    rewrite andb_false_r, andb_false_l. reflexivity.
  - split; reflexivity.
Qed.

Lemma busy_leaves_only_by_completeTask_witness :
  Valet.status Samples.busy_valet = BUSY
  /\ Valet.takeBreak Samples.clock0 Samples.busy_valet
     = (Samples.busy_valet, Throw CannotTakeBreakWhileBusy).
Proof.
  split; [reflexivity|].
  exact (proj1 (busy_leaves_only_by_completeTask Samples.clock0 Samples.busy_valet eq_refl)).
Defined.




(** C7 (corrected).  Every token createEntry returns is "VLT-" followed by
    exactly 8 decimal digits (the last 6 digits of [Date.now()] and the
    first 2 of the zero-padded random number), for a clock of at least
    10^5 ms and a random number in [0, 999]. *)
Theorem createEntry_token_format (e : CreateEntry.Entropy)
  (dto : CreateEntry.CreateVehicleEntryDTO) (w w' : CreateEntry.World)
  (resp : CreateEntry.VehicleEntryResponse) :
  CreateEntry.execute e dto w = (w', Ok resp) ->
  100000 <= nowMs (CreateEntry.clock e) ->
  0 <= CreateEntry.tokenRandom e < 1000 ->
  exists d, CreateEntry.resp_token resp = String.append "VLT-" d /\
            String.length d = 8%nat /\ JsString.all_chars JsString.is_digit d = true.
Proof.
  intros Hex Hts Hr.
  destruct (CreateEntryFacts.execute_ok_response _ _ _ _ _ Hex) as [Htok _].
  rewrite Htok. apply CreateEntryFacts.generateToken_shape; assumption.
Qed.

Lemma createEntry_token_format_witness :
  exists w' resp,
    CreateEntry.execute (Samples.entropy 789 7 "row-1")
      (Samples.entry_dto "kl07 ab1234" "9876543210") Samples.world0 = (w', Ok resp) /\
    exists d, CreateEntry.resp_token resp = String.append "VLT-" d /\
              String.length d = 8%nat /\ JsString.all_chars JsString.is_digit d = true.
Proof.
  destruct (CreateEntry.execute (Samples.entropy 789 7 "row-1")
              (Samples.entry_dto "kl07 ab1234" "9876543210") Samples.world0)
    as [w' [resp|err]] eqn:H.
  - exists w', resp. split; [reflexivity|].
    apply (createEntry_token_format _ _ _ _ _ H); unfold Samples.entropy, Samples.entry_clock; cbn; lia.
  - vm_compute in H. discriminate H.
Defined.

(** Counterexample to C7 as stated: the token createEntry returns at
    [Date.now() = 1760000123456] with random number 789 is "VLT-12345678",
    twelve characters, so no 9-digit string follows "VLT-". *)
Lemma createEntry_token_has_8_digits :
  exists w' resp,
    CreateEntry.execute (Samples.entropy 789 7 "row-1")
      (Samples.entry_dto "kl07 ab1234" "9876543210") Samples.world0 = (w', Ok resp) /\
    CreateEntry.resp_token resp = "VLT-12345678" /\
    ~ (exists d, CreateEntry.resp_token resp = String.append "VLT-" d /\ String.length d = 9%nat).
Proof.
  destruct (CreateEntry.execute (Samples.entropy 789 7 "row-1")
              (Samples.entry_dto "kl07 ab1234" "9876543210") Samples.world0)
    as [w' [resp|err]] eqn:H.
  - exists w', resp. split; [reflexivity|].
    vm_compute in H. injection H as _ <-.
    split; [reflexivity|]. intros (d & Hd & Hl).
    assert (H12 : String.length (String.append "VLT-" d) = 12%nat)
      by (rewrite <- Hd; reflexivity).
    cbn in H12. lia.
  - vm_compute in H. discriminate H.
Qed.

(** C8 (corrected).  The slot label of a successful createEntry is the
    decimal numeral of [Math.floor(Math.random() * 100) + 1]: it is computed
    from the random draw alone, whatever the zone and the vehicles already
    recorded (no occupancy is consulted), it lies among "1".."100" for a
    draw in [0, 99], and it is the slot of the row appended to the table. *)
Theorem createEntry_slot_label (e : CreateEntry.Entropy)
  (dto : CreateEntry.CreateVehicleEntryDTO) (w w' : CreateEntry.World)
  (resp : CreateEntry.VehicleEntryResponse) :
  CreateEntry.execute e dto w = (w', Ok resp) ->
  CreateEntry.resp_slot resp = JsString.toString (CreateEntry.slotRandom e + 1) /\
  (0 <= CreateEntry.slotRandom e < 100 ->
   exists k, 1 <= k <= 100 /\ CreateEntry.resp_slot resp = JsString.toString k) /\
  CreateEntry.vehicles w' = (CreateEntry.vehicles w ++ [CreateEntry.resp_vehicle resp])%list /\
  Vehicle.slot (CreateEntry.resp_vehicle resp) = CreateEntry.resp_slot resp.
Proof.
  intros Hex.
  destruct (CreateEntryFacts.execute_ok_response _ _ _ _ _ Hex)
    as (_ & [zone Hslot] & Hrows & Hrow).
  assert (Hs : CreateEntry.resp_slot resp = JsString.toString (CreateEntry.slotRandom e + 1))
    by (rewrite Hslot; reflexivity).
  split; [exact Hs|]. split; [rewrite Hs; apply CreateEntryFacts.toString_range|].
  split; assumption.
Qed.

Lemma createEntry_slot_label_witness :
  exists w' resp,
    CreateEntry.execute (Samples.entropy 789 7 "row-1")
      (Samples.entry_dto "kl07 ab1234" "9876543210") Samples.world0 = (w', Ok resp) /\
    CreateEntry.resp_slot resp = JsString.toString 8.
Proof.
  destruct (CreateEntry.execute (Samples.entropy 789 7 "row-1")
              (Samples.entry_dto "kl07 ab1234" "9876543210") Samples.world0)
    as [w' [resp|err]] eqn:H.
  - exists w', resp. split; [reflexivity|].
    exact (proj1 (createEntry_slot_label _ _ _ _ _ H)).
  - vm_compute in H. discriminate H.
Defined.

(** Counterexample to C8 as stated: two entries for different plates in a
    world with one zone of two free slots, drawing the same random number,
    leave two PARKING vehicles in zone "A" with the same slot label. *)
Lemma createEntry_duplicate_slot_label :
  let w2 := fst (CreateEntry.execute (Samples.entropy 790 7 "row-2")
                   (Samples.entry_dto "KL07AB5678" "9876543211")
                   (fst (CreateEntry.execute (Samples.entropy 789 7 "row-1")
                           (Samples.entry_dto "KL07AB1234" "9876543210") Samples.world0))) in
  exists v1 v2, In v1 (CreateEntry.vehicles w2) /\ In v2 (CreateEntry.vehicles w2) /\
    Vehicle.id v1 <> Vehicle.id v2 /\
    VehicleRepository.isActiveRecord v1 = true /\ VehicleRepository.isActiveRecord v2 = true /\
    Vehicle.zone v1 = Vehicle.zone v2 /\ Vehicle.slot v1 = Vehicle.slot v2.
Proof.
  intros w2. vm_compute in w2.
  destruct (CreateEntry.vehicles w2) as [|v1 [|v2 rest]] eqn:Hv; try discriminate Hv.
  injection Hv as H1 H2 H3.
  exists v1, v2. split; [left; reflexivity|]. split; [right; left; reflexivity|].
  rewrite <- H1, <- H2. vm_compute. split; [discriminate|]. repeat split.
Qed.

(** C9 (code bug).  A valid 10-digit mobile number written with its country
    code, as "+91..." or "91...", is rejected by createEntry with the
    invalid-phone error, the world left unchanged, whenever the same entry
    with the bare number passes validation: the digits kept by
    [replace(/\D/g, '')] are 12, which [/^[6-9]\d{9}$/] refuses, so the
    91-stripping branch of [normalizePhoneNumber] is never reached. *)
Theorem createEntry_rejects_country_code (e : CreateEntry.Entropy) (w : CreateEntry.World)
  (plate m : string) (ty op : option string) (p : string) :
  CreateEntry.validateInput (CreateEntry.mkDTO plate m ty op) = None ->
  p = String.append "+91" m \/ p = String.append "91" m ->
  CreateEntry.execute e (CreateEntry.mkDTO plate p ty op) w = (w, Throw InvalidPhoneNumber).
Proof.
  intros Hm Hp. rewrite CreateEntryFacts.execute_eq.
  unfold CreateEntry.validateInput in Hm |- *. cbn [CreateEntry.dto_vehicleNumber
    CreateEntry.dto_customerPhone CreateEntry.dto_entryOperatorId] in Hm |- *.
  destruct (_ || _)%bool eqn:Hplate in Hm; [discriminate|]. rewrite Hplate.
  destruct (negb (CreateEntry.truthy m) || _)%bool; [discriminate|].
  destruct (negb (CreateEntry.phoneRegexTest (JsString.strip_non_digits m))) eqn:Hre;
    [discriminate|].
  apply negb_false_iff in Hre.
  destruct (CreateEntryFacts.phoneRegexTest_digits _ Hre) as [_ Lm].
  assert (Hstrip : JsString.strip_non_digits p
                   = String.append "91" (JsString.strip_non_digits m)).
  { destruct Hp as [-> | ->]; reflexivity. }
  assert (Hreg : CreateEntry.phoneRegexTest
                   (String.append "91" (JsString.strip_non_digits m)) = false).
  { unfold CreateEntry.phoneRegexTest. cbn [String.append String.length].
    rewrite Lm. cbn [Nat.eqb]. rewrite andb_false_r. reflexivity. }
  assert (Hne : (negb (CreateEntry.truthy p) || (String.length (JsString.trim p) =? 0))%nat
                = false).
  { destruct Hp as [-> | ->]; cbn [String.append];
      (apply orb_false_intro; [reflexivity|]); apply Nat.eqb_neq;
      apply CreateEntryFacts.trim_nonempty; reflexivity. }
  rewrite Hne, Hstrip, Hreg. reflexivity.
Qed.

Lemma createEntry_rejects_country_code_witness :
  CreateEntry.validateInput (Samples.entry_dto "KL07AB1234" "9876543210") = None /\
  CreateEntry.execute (Samples.entropy 789 7 "row-1")
    (Samples.entry_dto "KL07AB1234" "+919876543210") Samples.world0 =
  (Samples.world0, Throw InvalidPhoneNumber).
Proof.
  assert (Hv : CreateEntry.validateInput (Samples.entry_dto "KL07AB1234" "9876543210") = None)
    by (vm_compute; reflexivity).
  split; [exact Hv|].
  exact (createEntry_rejects_country_code (Samples.entropy 789 7 "row-1") Samples.world0
           "KL07AB1234" "9876543210" None (Some "op-1") "+919876543210" Hv
           (or_introl eq_refl)).
Defined.

(** * Lemmas about the further code *)

Module VehicleLifecycleFacts.
Import Vehicle.

Ltac split_ifs := repeat (match goal with |- context [if ?b then _ else _] => destruct b end; cbn).

Lemma run_op_moves_along_table (now : Z) (o : Op) (v : Vehicle) :
  match run_op now o v with
  | (v', Ok _) => In (state v') (VehicleStateMachine.transitions (state v))
  | (v', Throw _) => state v' = state v
  end.
Proof.
  destruct v as [a b c d e f s h i j k l m n o' p q r s' t].
  destruct o; destruct s; cbn; split_ifs; cbn; auto.
Qed.

Lemma transitions_rank (s t : VehicleState) :
  In t (VehicleStateMachine.transitions s) -> StateOrder.rank s < StateOrder.rank t.
Proof. destruct s; cbn; intuition (subst; cbn; lia). Qed.

Lemma rank_inj (s t : VehicleState) : StateOrder.rank s = StateOrder.rank t -> s = t.
Proof. destruct s, t; cbn; congruence. Qed.

Lemma run_op_rank (now : Z) (o : Op) (v : Vehicle) :
  StateOrder.rank (state v) <= StateOrder.rank (state (fst (run_op now o v))).
Proof.
  pose proof (run_op_moves_along_table now o v) as H.
  destruct (run_op now o v) as [v' [u|e]]; cbn.
  - apply transitions_rank in H. lia.
  - rewrite H. lia.
Qed.

Lemma run_ops_rank (calls : list (Z * Op)) (v : Vehicle) :
  StateOrder.rank (state v) <= StateOrder.rank (state (run_ops calls v)).
Proof.
  revert v. induction calls as [|[now o] rest IH]; intros v; cbn; [lia|].
  specialize (IH (fst (run_op now o v))). pose proof (run_op_rank now o v). lia.
Qed.

Lemma markAsParked_ok (now : Z) (v : Vehicle) (pv : string) :
  state v = PARKING -> parkingValetId v = Some pv ->
  markAsParked now v = (set_updatedAt (set_parkedAt (set_state v PARKED) (Some now)) now, Ok tt).
Proof. destruct v; cbn; intros -> ->; reflexivity. Qed.

Lemma requestMarkOut_ok (now m : Z) (v : Vehicle) :
  state v = PARKED -> In m [5; 7; 10] ->
  requestMarkOut now m v =
  (set_updatedAt (set_scheduledAt (set_markoutRequestedAt (set_state v SCHEDULED) (Some now))
     (Some (now + m * 60 * 1000))) now, Ok tt).
Proof.
  destruct v; cbn; intros -> Hm.
  destruct Hm as [<-|[<-|[<-|[]]]]; reflexivity.
Qed.

Lemma assignRetrievalValet_ok (now : Z) (valetId : string) (v : Vehicle) :
  state v = SCHEDULED ->
  assignRetrievalValet now valetId v =
  (set_updatedAt (set_state (set_retrievalValetId v (Some valetId)) RETRIEVAL_ASSIGNED) now,
   Ok tt).
Proof. destruct v; cbn; intros ->; reflexivity. Qed.

Lemma startRetrieval_ok (now t : Z) (v : Vehicle) :
  state v = RETRIEVAL_ASSIGNED -> scheduledAt v = Some t -> t <= now ->
  startRetrieval now v =
  (set_updatedAt (set_retrievalStartedAt (set_state v ON_THE_WAY) (Some now)) now, Ok tt).
Proof.
  destruct v; cbn; intros -> -> Ht.
  unfold startRetrieval, bind, get, throw, lift, modify. cbn.
  rewrite (proj2 (Z.leb_le _ _) Ht). reflexivity.
Qed.

Lemma markAsDelivered_ok (now : Z) (v : Vehicle) :
  state v = ON_THE_WAY ->
  markAsDelivered now v =
  (set_updatedAt (set_deliveredAt (set_state v DELIVERED) (Some now)) now, Ok tt).
Proof. destruct v; cbn; intros ->; reflexivity. Qed.

Lemma close_ok (now : Z) (v : Vehicle) :
  state v = DELIVERED ->
  close now v = (set_updatedAt (set_closedAt (set_state v CLOSED) (Some now)) now, Ok tt).
Proof. destruct v; cbn; intros ->; reflexivity. Qed.

End VehicleLifecycleFacts.

Module ValetCounterFacts.
Import Valet.

Ltac split_ifs := repeat (match goal with |- context [if ?b then _ else _] => destruct b end; cbn).

Lemma run_op_counters (c : Clock) (o : Op) (v : Valet) :
  let v' := fst (run_op c o v) in
  (assignmentSequence v' = assignmentSequence v /\ todayCount v' = todayCount v /\
   totalCount v' = totalCount v) \/
  (assignmentSequence v' = assignmentSequence v + 1 /\ todayCount v' = todayCount v + 1 /\
   totalCount v' = totalCount v + 1) \/
  (assignmentSequence v' = 0 /\ todayCount v' = 0 /\ totalCount v' = totalCount v).
Proof.
  destruct v as [a b c' s e f g h i j k l m].
  destruct o; cbn; split_ifs; cbn; auto.
Qed.

Lemma run_op_busy_entry (c : Clock) (o : Op) (v : Valet) :
  status v <> BUSY -> status (fst (run_op c o v)) = BUSY ->
  o = OpAssignTask /\ canBeAssigned c v = true /\
  fst (run_op c o v) =
    set_updatedAt (set_totalCount (set_todayCount (set_assignmentSequence
      (set_status v BUSY) (assignmentSequence v + 1)) (todayCount v + 1))
      (totalCount v + 1)) (nowMs c).
Proof.
  intros Hs. destruct o; cbn [run_op].
  1: { unfold assignTask, bind, get, throw, modify. cbn -[canBeAssigned].
       destruct (canBeAssigned c v) eqn:Hc; cbn -[canBeAssigned].
       - intros _. split; [reflexivity|]. split; [reflexivity|]. destruct v; reflexivity.
       - intros H. congruence. }
  all: destruct v as [a b c' s e f g h i j k l m]; cbn in Hs;
    destruct s; cbn; intros H; congruence.
Qed.

End ValetCounterFacts.

Module StatsFacts.

Lemma fold_min_le_acc (r : list Z) (x : Z) : fold_left Z.min r x <= x.
Proof.
  revert x. induction r as [|a r IH]; intros x; cbn; [lia|].
  specialize (IH (Z.min x a)). lia.
Qed.

Lemma fold_min_le (r : list Z) (x y : Z) : In y (x :: r) -> fold_left Z.min r x <= y.
Proof.
  revert x. induction r as [|a r IH]; intros x Hy; cbn in *.
  - destruct Hy as [<-|[]]; lia.
  - destruct Hy as [<-|[<-|Hy]].
    + pose proof (fold_min_le_acc r (Z.min x a)). lia.
    + pose proof (fold_min_le_acc r (Z.min x a)). lia.
    + apply IH. now right.
Qed.

Lemma fold_max_ge_acc (r : list Z) (x : Z) : x <= fold_left Z.max r x.
Proof.
  revert x. induction r as [|a r IH]; intros x; cbn; [lia|].
  specialize (IH (Z.max x a)). lia.
Qed.

Lemma fold_max_ge (r : list Z) (x y : Z) : In y (x :: r) -> y <= fold_left Z.max r x.
Proof.
  revert x. induction r as [|a r IH]; intros x Hy; cbn in *.
  - destruct Hy as [<-|[]]; lia.
  - destruct Hy as [<-|[<-|Hy]].
    + pose proof (fold_max_ge_acc r (Z.max x a)). lia.
    + pose proof (fold_max_ge_acc r (Z.max x a)). lia.
    + apply IH. now right.
Qed.

Lemma sum_bounds (l : list Z) (a lo hi : Z) :
  (forall y, In y l -> lo <= y <= hi) ->
  a + lo * Z.of_nat (length l) <= fold_left Z.add l a <= a + hi * Z.of_nat (length l).
Proof.
  revert a. induction l as [|y l IH]; intros a H; cbn [fold_left length]; [lia|].
  assert (Hy : lo <= y <= hi) by (apply H; now left).
  specialize (IH (a + y) ltac:(intros z Hz; apply H; now right)).
  rewrite Nat2Z.inj_succ. nia.
Qed.

Lemma count_three_le (l : list Valet.Valet) :
  RoundRobin.count_status FREE l + RoundRobin.count_status BUSY l +
  RoundRobin.count_status BREAK l <= Z.of_nat (length l).
Proof.
  unfold RoundRobin.count_status.
  induction l as [|v l IH]; cbn [filter length]; [cbn; lia|].
  destruct (Valet.status v); cbn [ValetStatus_beq length]; rewrite ?Nat2Z.inj_succ; lia.
Qed.

End StatsFacts.

Module DailyResetFacts.
Import Valet.

Lemma insert_by_name_perm (v : Valet) (l : list Valet) :
  Permutation (ValetRepository.insert_by_name v l) (v :: l).
Proof.
  induction l as [|w t IH]; cbn; [reflexivity|].
  destruct (String.leb (name v) (name w)); [reflexivity|].
  rewrite IH. apply perm_swap.
Qed.

Lemma findAll_perm (table : list Valet) :
  Permutation (ValetRepository.findAll table) table.
Proof.
  unfold ValetRepository.findAll.
  induction table as [|v t IH]; cbn [fold_right]; [reflexivity|].
  rewrite insert_by_name_perm. now apply perm_skip.
Qed.

Lemma nodup_map_inj {A B} (f : A -> B) (l : list A) (x y : A) :
  NoDup (map f l) -> In x l -> In y l -> f x = f y -> x = y.
Proof.
  induction l as [|a l IH]; intros Hn Hx Hy Hf; [destruct Hx|].
  cbn in Hn. inversion Hn as [|b m Hnin Hn' Heq]; subst.
  destruct Hx as [<-|Hx]; destruct Hy as [<-|Hy]; auto.
  - exfalso. apply Hnin. rewrite Hf. now apply in_map.
  - exfalso. apply Hnin. rewrite <- Hf. now apply in_map.
Qed.

Local Abbreviation reset_row c w := (fst (Valet.resetDailyCounters c w)).

Lemma reset_row_id (c : Clock) (w : Valet) : id (reset_row c w) = id w.
Proof. destruct w; reflexivity. Qed.

Lemma update_reset_row (c : Clock) (v : Valet) (t : list Valet) :
  NoDup (map id t) -> In v t ->
  ValetRepository.update c (reset_row c v) t =
  map (fun w => if String.eqb (id w) (id v) then reset_row c w else w) t.
Proof.
  intros Hn Hv. unfold ValetRepository.update. apply map_ext_in. intros w Hw.
  rewrite reset_row_id. destruct (String.eqb (id w) (id v)) eqn:E; [|reflexivity].
  apply String.eqb_eq in E. rewrite (nodup_map_inj id t w v Hn Hw Hv E).
  destruct v; reflexivity.
Qed.

Local Abbreviation touched vs w := (existsb (fun u => String.eqb (id w) (id u)) vs).

Lemma touched_false (vs : list Valet) (w : Valet) :
  ~ In (id w) (map id vs) -> touched vs w = false.
Proof.
  induction vs as [|u vs IH]; intros H; [reflexivity|].
  cbn. destruct (String.eqb (id w) (id u)) eqn:E.
  - exfalso. apply String.eqb_eq in E. apply H. left. congruence.
  - apply IH. intros H'. apply H. now right.
Qed.

Lemma touched_true (vs : list Valet) (w : Valet) : In w vs -> touched vs w = true.
Proof.
  intros H. apply existsb_exists. exists w. split; [exact H|].
  apply String.eqb_refl.
Qed.

Lemma reset_each_eq (c : Clock) (vs t : list Valet) :
  NoDup (map id t) -> NoDup (map id vs) -> (forall u, In u vs -> In u t) ->
  RoundRobin.reset_each c vs t =
  (map (fun w => if touched vs w then reset_row c w else w) t, Ok tt).
Proof.
  revert t. induction vs as [|v rest IH]; intros t Ht Hvs Hsub.
  - cbn. unfold ret. f_equal. symmetry. apply map_id.
  - cbn [RoundRobin.reset_each]. unfold bind, modify. cbn beta iota.
    rewrite (update_reset_row c v t Ht (Hsub v (or_introl eq_refl))).
    cbn in Hvs. inversion Hvs as [|b m Hnin Hvs' Heq]; subst.
    set (t1 := map (fun w => if String.eqb (id w) (id v) then reset_row c w else w) t).
    assert (Hid1 : map id t1 = map id t).
    { unfold t1. rewrite map_map. apply map_ext. intros w.
      destruct (String.eqb (id w) (id v)); [apply reset_row_id|reflexivity]. }
    rewrite IH.
    + f_equal. unfold t1. rewrite map_map. apply map_ext_in. intros w Hw.
      cbn [existsb].
      destruct (String.eqb (id w) (id v)) eqn:E; cbn [orb].
      * apply String.eqb_eq in E.
        rewrite (touched_false rest (reset_row c w)); [reflexivity|].
        rewrite reset_row_id, E. exact Hnin.
      * reflexivity.
    + rewrite Hid1. exact Ht.
    + exact Hvs'.
    + intros u Hu. unfold t1.
      replace u with (if String.eqb (id u) (id v) then reset_row c u else u) at 1.
      * apply (in_map (fun w => if String.eqb (id w) (id v) then reset_row c w else w)).
        apply Hsub. now right.
      * destruct (String.eqb (id u) (id v)) eqn:E; [|reflexivity].
        exfalso. apply String.eqb_eq in E. apply Hnin. rewrite <- E. now apply in_map.
Qed.

End DailyResetFacts.

Module ReassignFacts.
Import Valet.

Lemma canBeAssigned_free (c : Clock) (v : Valet) :
  canBeAssigned c v = true -> status v = FREE.
Proof.
  unfold canBeAssigned, statusCanBeAssigned. intros H.
  apply andb_prop in H as [H _]. apply andb_prop in H as [_ H].
  destruct (status v); [reflexivity|discriminate..].
Qed.

End ReassignFacts.

Module MarkParkedFacts.

Lemma markAsParked_result (now : Z) (v v' : Vehicle.Vehicle) (u : unit) :
  Vehicle.markAsParked now v = (v', Ok u) ->
  Vehicle.state v = PARKING /\ Vehicle.state v' = PARKED /\ Vehicle.id v' = Vehicle.id v.
Proof.
  destruct v as [a b c d e f s g h i j k l m n o pv q r t].
  destruct s, pv; cbn; intros H; inversion H; subst; auto.
Qed.

Lemma markAsParked_not_parking (now : Z) (v : Vehicle.Vehicle) :
  Vehicle.state v <> PARKING ->
  Vehicle.markAsParked now v = (v, Throw (CannotMarkParked (Vehicle.state v))).
Proof.
  destruct v as [a b c d e f s g h i j k l m n o pv q r t]; cbn.
  intros Hs. destruct s; [congruence|reflexivity..].
Qed.

Lemma completeTask_result (c : Clock) (x x' : Valet.Valet) (u : unit) :
  Valet.completeTask c x = (x', Ok u) -> Valet.status x' = FREE.
Proof.
  destruct x as [a b c' s e f g h i j k l m].
  destruct s; cbn; intros H; inversion H; reflexivity.
Qed.

Lemma completeTask_not_busy (c : Clock) (x : Valet.Valet) :
  Valet.status x <> BUSY ->
  Valet.completeTask c x = (x, Throw (CannotCompleteTask (Valet.status x))).
Proof.
  destruct x as [a b c' s e f g h i j k l m]; cbn.
  intros Hs. destruct s; [reflexivity|congruence|reflexivity|reflexivity].
Qed.

Lemma find_id (table : list VehicleRows.VehicleRow) (vid : string) (v : Vehicle.Vehicle) :
  MarkVehicleParked.findVehicleById table vid = Some v -> Vehicle.id v = vid.
Proof.
  unfold MarkVehicleParked.findVehicleById. intros H.
  destruct (find _ table) as [r|] eqn:Hr; [|discriminate].
  injection H as <-. apply find_some in Hr as [_ Hr]. now apply String.eqb_eq.
Qed.

End MarkParkedFacts.

Module NormalizeFacts.
Import JsString JsStringFacts.

Local Abbreviation non_space := (fun ch => negb (is_space ch)).

Lemma strip_spaces_non_space (s : string) : all_chars non_space (strip_spaces s) = true.
Proof.
  unfold strip_spaces. induction s as [|ch s IH]; cbn; [reflexivity|].
  destruct (is_space ch) eqn:E; cbn; [exact IH|]. rewrite ?E. cbn. exact IH.
Qed.

Lemma upper_char_non_space (ch : ascii) :
  is_space ch = false -> is_space (upper_char ch) = false.
Proof.
  unfold upper_char. destruct ((97 <=? nat_of_ascii ch)%nat && (nat_of_ascii ch <=? 122)%nat)
    eqn:E; [|auto].
  intros _. apply andb_prop in E as [E1 E2]. apply Nat.leb_le in E1, E2.
  unfold is_space. rewrite nat_ascii_embedding by lia.
  apply orb_false_iff. split.
  - apply andb_false_iff. right. apply Nat.leb_gt. lia.
  - apply Nat.eqb_neq. lia.
Qed.

Lemma upper_char_idem (ch : ascii) : upper_char (upper_char ch) = upper_char ch.
Proof.
  unfold upper_char. set (n := nat_of_ascii ch).
  destruct ((97 <=? n)%nat && (n <=? 122)%nat) eqn:E; [|fold n; rewrite E; reflexivity].
  apply andb_prop in E as [E1 E2]. apply Nat.leb_le in E1, E2.
  rewrite nat_ascii_embedding by lia.
  replace ((97 <=? n - 32)%nat) with false by (symmetry; apply Nat.leb_gt; lia).
  reflexivity.
Qed.

Lemma toUpperCase_non_space (s : string) :
  all_chars non_space s = true -> all_chars non_space (toUpperCase s) = true.
Proof.
  induction s as [|ch s IH]; cbn [toUpperCase all_chars]; [reflexivity|].
  intros H. apply andb_prop in H as [H1 H2]. rewrite IH by exact H2.
  apply negb_true_iff in H1.
  rewrite (upper_char_non_space ch H1). reflexivity.
Qed.

Lemma toUpperCase_idem (s : string) : toUpperCase (toUpperCase s) = toUpperCase s.
Proof. induction s as [|ch s IH]; cbn; [reflexivity|]. now rewrite upper_char_idem, IH. Qed.

Lemma all_chars_list (p : ascii -> bool) (l : list ascii) :
  all_chars p (string_of_list_ascii l) = forallb p l.
Proof. induction l as [|a l IH]; cbn; congruence. Qed.

Lemma list_string_list (l : list ascii) : list_ascii_of_string (string_of_list_ascii l) = l.
Proof. induction l as [|a l IH]; cbn; congruence. Qed.

Lemma string_list_string (s : string) : string_of_list_ascii (list_ascii_of_string s) = s.
Proof. induction s as [|a s IH]; cbn; congruence. Qed.

Lemma rev_string_rev_string (s : string) : rev_string (rev_string s) = s.
Proof.
  unfold rev_string. rewrite list_string_list, rev_involutive. apply string_list_string.
Qed.

Lemma forallb_rev' (p : ascii -> bool) (l : list ascii) : forallb p (rev l) = forallb p l.
Proof.
  induction l as [|a l IH]; cbn; [reflexivity|].
  rewrite forallb_app, IH. cbn. now rewrite andb_true_r, andb_comm.
Qed.

Lemma all_chars_rev_string (p : ascii -> bool) (s : string) :
  all_chars p (rev_string s) = all_chars p s.
Proof.
  unfold rev_string. rewrite all_chars_list, forallb_rev'.
  rewrite <- (all_chars_list p). now rewrite string_list_string.
Qed.

Lemma trim_start_non_space (s : string) : all_chars non_space s = true -> trim_start s = s.
Proof.
  destruct s as [|ch t]; cbn; [reflexivity|].
  intros H. apply andb_prop in H as [H _]. apply negb_true_iff in H. now rewrite H.
Qed.

Lemma trim_non_space (s : string) : all_chars non_space s = true -> trim s = s.
Proof.
  intros H. unfold trim. rewrite (trim_start_non_space s H).
  rewrite trim_start_non_space by (rewrite all_chars_rev_string; exact H).
  apply rev_string_rev_string.
Qed.

Lemma normalize_eq (s : string) :
  CreateEntry.normalizeVehicleNumber s = toUpperCase (strip_spaces s).
Proof.
  unfold CreateEntry.normalizeVehicleNumber. apply trim_non_space.
  apply toUpperCase_non_space, strip_spaces_non_space.
Qed.

End NormalizeFacts.

Module ZoneFacts.
Import ParkingZone.

Lemma set_availableSlots_id (z : ParkingZone) (x : Z) : id (set_availableSlots z x) = id z.
Proof. destruct z; reflexivity. Qed.

Lemma set_availableSlots_twice (z : ParkingZone) (x y : Z) :
  set_availableSlots (set_availableSlots z x) y = set_availableSlots z y.
Proof. destruct z; reflexivity. Qed.

Lemma set_availableSlots_same (z : ParkingZone) : set_availableSlots z (availableSlots z) = z.
Proof. destruct z; reflexivity. Qed.

Lemma set_availableSlots_eq (z : ParkingZone) (x : Z) :
  x = availableSlots z -> set_availableSlots z x = z.
Proof. intros ->. destruct z; reflexivity. Qed.

Lemma set_availableSlots_get (z : ParkingZone) (x : Z) :
  availableSlots (set_availableSlots z x) = x.
Proof. destruct z; reflexivity. Qed.

Lemma findAvailableZone_cases (table : list ParkingZone) :
  match ParkingZoneRepository.findAvailableZone table with
  | None => forall z, In z table -> hasAvailability z = false
  | Some z => In z table /\ hasAvailability z = true /\
      forall z', In z' table -> hasAvailability z' = true -> priority z <= priority z'
  end.
Proof.
  unfold ParkingZoneRepository.findAvailableZone.
  set (f := filter _ table).
  assert (Hf : forall z, In z f <-> In z table /\ hasAvailability z = true)
    by (intros z; unfold f; rewrite filter_In; reflexivity).
  destruct (sort_by priority f) as [|z rest] eqn:Hs.
  - apply sort_by_nil in Hs. intros z Hz.
    destruct (hasAvailability z) eqn:Ha; [|reflexivity].
    exfalso. assert (Hin : In z f) by (apply Hf; auto). rewrite Hs in Hin. destruct Hin.
  - assert (Hz : In z f) by (apply (in_sort_by priority); rewrite Hs; now left).
    apply Hf in Hz as [Hz1 Hz2]. split; [exact Hz1|]. split; [exact Hz2|].
    intros z' Hz' Ha. apply (sort_by_head_min priority f z rest Hs).
    apply Hf. auto.
Qed.

End ZoneFacts.

Module StaffFacts.
Import StaffPermissions.
Local Open Scope string_scope.

Local Abbreviation supervisor_resources :=
  ["vehicle"; "valet"; "zone"; "staff"; "reports"; "markout"].

Lemma append_empty_r (s : string) : String.append s EmptyString = s.
Proof. induction s as [|ch s IH]; cbn; congruence. Qed.

Lemma split_first_idem (p : string) : split_first (split_first p) = split_first p.
Proof.
  induction p as [|ch p IH]; cbn; [reflexivity|].
  destruct (Ascii.eqb ch "."%char) eqn:E; cbn; [reflexivity|]. now rewrite E, IH.
Qed.

Lemma split_first_app (r s : string) :
  split_first r = r -> split_first (String.append r s) = String.append r (split_first s).
Proof.
  induction r as [|ch r IH]; cbn; [reflexivity|].
  destruct (Ascii.eqb ch "."%char) eqn:E; [discriminate|].
  intros H. injection H as H. now rewrite IH.
Qed.

Lemma split_first_wildcard (p : string) :
  split_first (String.append (split_first p) ".*") = split_first p.
Proof.
  rewrite split_first_app by apply split_first_idem. cbn. apply append_empty_r.
Qed.

Lemma has_In (set : list string) (x : string) : has set x = true <-> In x set.
Proof.
  unfold has. rewrite existsb_exists. split.
  - intros [y [Hy E]]. apply String.eqb_eq in E. now subst.
  - intros H. exists x. split; [exact H|apply String.eqb_refl].
Qed.

Lemma permissions_resources (r : StaffRole) (l : string) :
  In l (PERMISSIONS r) -> In (split_first l) supervisor_resources.
Proof.
  destruct r; cbn; intros H; repeat destruct H as [<-|H]; try destruct H;
    cbn; tauto.
Qed.

Lemma hasPermission_resource (r : StaffRole) (p : string) :
  hasPermission r p = true -> In (split_first p) supervisor_resources.
Proof.
  unfold hasPermission. intros H. apply orb_true_iff in H as [H|H];
    apply has_In in H; apply permissions_resources in H; [exact H|].
  rewrite split_first_wildcard in H. exact H.
Qed.

Lemma supervisor_iff (p : string) :
  hasPermission SUPERVISOR p = true <-> In (split_first p) supervisor_resources.
Proof.
  split; [apply hasPermission_resource|].
  intros H. unfold hasPermission. apply orb_true_iff. right. apply has_In.
  repeat destruct H as [<-|H]; try destruct H; cbn; tauto.
Qed.

End StaffFacts.

Module EntryFacts.
Import CreateEntry JsString.

Lemma validateInput_phone (dto : CreateVehicleEntryDTO) :
  validateInput dto = None -> phoneRegexTest (strip_non_digits (dto_customerPhone dto)) = true.
Proof.
  unfold validateInput.
  destruct (negb (truthy (dto_vehicleNumber dto)) || _); [discriminate|].
  destruct (negb (truthy (dto_customerPhone dto)) || _); [discriminate|].
  destruct (phoneRegexTest (strip_non_digits (dto_customerPhone dto))); [|discriminate].
  reflexivity.
Qed.

Lemma normalizePhone_valid (phone : string) :
  phoneRegexTest (strip_non_digits phone) = true ->
  normalizePhoneNumber phone = strip_non_digits phone.
Proof.
  intros H. destruct (CreateEntryFacts.phoneRegexTest_digits _ H) as [_ Hl].
  unfold normalizePhoneNumber. rewrite Hl. cbn [Nat.eqb]. now rewrite andb_false_r.
Qed.


(** The valet [execute] selects is stored BUSY. *)
Lemma selected_stored_busy (c : Clock) (table table' : list Valet.Valet) (sel : Valet.Valet) :
  RoundRobin.execute c RoundRobin.PARKING_TASK table = (table', Ok sel) ->
  exists u, In u table' /\ Valet.id u = Valet.id sel /\ Valet.status u = BUSY.
Proof.
  intros H. pose proof (RoundRobinFacts.execute_cases c RoundRobin.PARKING_TASK table) as C.
  rewrite H in C. destruct C as (v0 & Hin & Hel & _ & Ha & ->).
  rewrite (RoundRobinFacts.assignTask_ok c v0 Hel) in Ha. injection Ha as Hsel.
  assert (Hid : Valet.id sel = Valet.id v0) by (subst sel; destruct v0; reflexivity).
  assert (Hst : Valet.status sel = BUSY) by (subst sel; destruct v0; reflexivity).
  destruct (RoundRobinFacts.update_keeps_id c sel v0 table Hin) as [u [Hu Huid]].
  exists u. split; [exact Hu|]. split; [congruence|].
  destruct (RoundRobinFacts.in_update c sel u table Hu)
    as [w0 [_ [[Hne ->]|(_ & _ & _ & _ & _ & Hs & _)]]].
  - exfalso. apply Hne. congruence.
  - congruence.
Qed.

End EntryFacts.


(** * Further properties of the code *)

(** X1.  Every call of a Vehicle method that succeeds moves the state to
    one of the successors the transition table lists, and every call that
    throws leaves the state as it was. *)
Theorem vehicle_method_follows_table (now : Z) (o : Vehicle.Op) (v : Vehicle.Vehicle) :
  match Vehicle.run_op now o v with
  | (v', Ok _) => In (Vehicle.state v') (VehicleStateMachine.transitions (Vehicle.state v))
  | (v', Throw _) => Vehicle.state v' = Vehicle.state v
  end.
Proof. apply VehicleLifecycleFacts.run_op_moves_along_table. Qed.

(** X2.  CLOSED is terminal: every Vehicle method called on a CLOSED
    vehicle throws and leaves the vehicle unchanged. *)
Theorem vehicle_closed_terminal (now : Z) (o : Vehicle.Op) (v : Vehicle.Vehicle) :
  Vehicle.state v = CLOSED -> exists e, Vehicle.run_op now o v = (v, Throw e).
Proof.
  destruct v as [a b c d e f s h i j k l m n o' p q r s' t]; cbn; intros ->.
  destruct o; eexists; reflexivity.
Qed.

Lemma vehicle_closed_terminal_witness :
  Vehicle.state (Samples.vehicle_in CLOSED None) = CLOSED /\
  exists e, Vehicle.run_op 500000 Vehicle.OpClose (Samples.vehicle_in CLOSED None) =
            (Samples.vehicle_in CLOSED None, Throw e).
Proof.
  split; [reflexivity|].
  apply (vehicle_closed_terminal 500000 Vehicle.OpClose (Samples.vehicle_in CLOSED None)).
  reflexivity.
Defined.

(** X3.  A vehicle never comes back to a state it has left: whatever
    sequence of method calls is made (failed calls included), if the
    vehicle is in its initial state after [calls1 ++ calls2], it was already
    in that state after [calls1]. *)
Theorem vehicle_never_reenters_state (calls1 calls2 : list (Z * Vehicle.Op))
  (v : Vehicle.Vehicle) :
  Vehicle.state (Vehicle.run_ops calls2 (Vehicle.run_ops calls1 v)) = Vehicle.state v ->
  Vehicle.state (Vehicle.run_ops calls1 v) = Vehicle.state v.
Proof.
  intros H. apply VehicleLifecycleFacts.rank_inj.
  pose proof (VehicleLifecycleFacts.run_ops_rank calls1 v).
  pose proof (VehicleLifecycleFacts.run_ops_rank calls2 (Vehicle.run_ops calls1 v)).
  rewrite H in *. lia.
Qed.

Lemma vehicle_never_reenters_state_witness :
  Vehicle.state (Vehicle.run_ops [(600000, Vehicle.OpClose)]
     (Vehicle.run_ops [(500000, Vehicle.OpMarkAsParked)]
        (Samples.vehicle_in PARKED None))) = Vehicle.state (Samples.vehicle_in PARKED None) /\
  Vehicle.state (Vehicle.run_ops [(500000, Vehicle.OpMarkAsParked)]
     (Samples.vehicle_in PARKED None)) = Vehicle.state (Samples.vehicle_in PARKED None).
Proof.
  assert (H : Vehicle.state (Vehicle.run_ops [(600000, Vehicle.OpClose)]
     (Vehicle.run_ops [(500000, Vehicle.OpMarkAsParked)]
        (Samples.vehicle_in PARKED None))) = Vehicle.state (Samples.vehicle_in PARKED None))
    by reflexivity.
  split; [exact H | exact (vehicle_never_reenters_state _ _ _ H)].
Defined.

(** X4.  The lifecycle the methods support: from PARKING with a parking
    valet, markAsParked, requestMarkOut with 5, 7 or 10 minutes,
    assignRetrievalValet, startRetrieval once the scheduled time is
    reached, markAsDelivered and close all succeed, in that order; the
    vehicle ends CLOSED with each timestamp set by its call. *)
Theorem vehicle_full_lifecycle (v : Vehicle.Vehicle) (pv rv : string)
  (t0 t1 m t2 t3 t4 t5 : Z) :
  Vehicle.state v = PARKING -> Vehicle.parkingValetId v = Some pv ->
  In m [5; 7; 10] -> t1 + m * 60 * 1000 <= t3 ->
  exists v1 v2 v3 v4 v5 v6,
    Vehicle.markAsParked t0 v = (v1, Ok tt) /\
    Vehicle.requestMarkOut t1 m v1 = (v2, Ok tt) /\
    Vehicle.assignRetrievalValet t2 rv v2 = (v3, Ok tt) /\
    Vehicle.startRetrieval t3 v3 = (v4, Ok tt) /\
    Vehicle.markAsDelivered t4 v4 = (v5, Ok tt) /\
    Vehicle.close t5 v5 = (v6, Ok tt) /\
    Vehicle.state v6 = CLOSED /\ Vehicle.parkedAt v6 = Some t0 /\
    Vehicle.markoutRequestedAt v6 = Some t1 /\
    Vehicle.scheduledAt v6 = Some (t1 + m * 60 * 1000) /\
    Vehicle.retrievalValetId v6 = Some rv /\ Vehicle.retrievalStartedAt v6 = Some t3 /\
    Vehicle.deliveredAt v6 = Some t4 /\ Vehicle.closedAt v6 = Some t5 /\
    Vehicle.updatedAt v6 = t5.
Proof.
  intros Hs Hpv Hm Ht.
  destruct v as [a b c d e f s h i j k l m' n o p q r s' t]; cbn in Hs, Hpv; subst.
  do 6 eexists.
  split; [rewrite VehicleLifecycleFacts.markAsParked_ok with (pv := pv) by reflexivity;
          reflexivity|].
  split; [rewrite VehicleLifecycleFacts.requestMarkOut_ok by (reflexivity || exact Hm); reflexivity|].
  split; [rewrite VehicleLifecycleFacts.assignRetrievalValet_ok by reflexivity; reflexivity|].
  split; [rewrite VehicleLifecycleFacts.startRetrieval_ok with (t := t1 + m * 60 * 1000)
            by (reflexivity || exact Ht); reflexivity|].
  split; [rewrite VehicleLifecycleFacts.markAsDelivered_ok by reflexivity; reflexivity|].
  split; [rewrite VehicleLifecycleFacts.close_ok by reflexivity; reflexivity|].
  repeat split.
Qed.

Lemma vehicle_full_lifecycle_witness :
  exists v1 v2 v3 v4 v5 v6,
    Vehicle.markAsParked 60000 (Samples.vehicle_in PARKING None) = (v1, Ok tt) /\
    Vehicle.requestMarkOut 120000 5 v1 = (v2, Ok tt) /\
    Vehicle.assignRetrievalValet 130000 "valet-2" v2 = (v3, Ok tt) /\
    Vehicle.startRetrieval 420000 v3 = (v4, Ok tt) /\
    Vehicle.markAsDelivered 600000 v4 = (v5, Ok tt) /\
    Vehicle.close 660000 v5 = (v6, Ok tt) /\
    Vehicle.state v6 = CLOSED /\ Vehicle.parkedAt v6 = Some 60000 /\
    Vehicle.markoutRequestedAt v6 = Some 120000 /\
    Vehicle.scheduledAt v6 = Some (120000 + 5 * 60 * 1000) /\
    Vehicle.retrievalValetId v6 = Some "valet-2" /\ Vehicle.retrievalStartedAt v6 = Some 420000 /\
    Vehicle.deliveredAt v6 = Some 600000 /\ Vehicle.closedAt v6 = Some 660000 /\
    Vehicle.updatedAt v6 = 660000.
Proof.
  apply (vehicle_full_lifecycle (Samples.vehicle_in PARKING None) "valet-1" "valet-2"
           60000 120000 5 130000 420000 600000 660000);
    [reflexivity | reflexivity | cbn; auto | lia].
Defined.

(** X5.  When a vehicle was parked before its retrieval started and
    delivered after it, both durations are defined, and the retrieval
    duration lies between 0 and the total parking duration (whole
    minutes). *)
Theorem vehicle_durations_ordered (v : Vehicle.Vehicle) (p r d : Z) :
  Vehicle.parkedAt v = Some p -> Vehicle.retrievalStartedAt v = Some r ->
  Vehicle.deliveredAt v = Some d -> p <= r <= d ->
  exists total retrieval,
    Vehicle.getTotalDuration v = Some total /\
    Vehicle.getRetrievalDuration v = Some retrieval /\
    0 <= retrieval <= total.
Proof.
  intros Hp Hr Hd Hord. unfold Vehicle.getTotalDuration, Vehicle.getRetrievalDuration.
  rewrite Hp, Hr, Hd. do 2 eexists. split; [reflexivity|]. split; [reflexivity|].
  split.
  - apply Z.div_pos; [apply Z.div_pos|]; lia.
  - apply Z.div_le_mono; [lia|]. apply Z.div_le_mono; lia.
Qed.

Lemma vehicle_durations_ordered_witness :
  exists total retrieval,
    Vehicle.getTotalDuration (Vehicle.mkVehicle "veh-1" "VLT-12345678" "KL07AB1234"
      "9876543210" "A" "7" DELIVERED None 0 (Some 60000) (Some 120000) (Some 420000)
      (Some 420000) (Some 600000) None None (Some "valet-1") (Some "valet-2") 0 600000)
      = Some total /\
    Vehicle.getRetrievalDuration (Vehicle.mkVehicle "veh-1" "VLT-12345678" "KL07AB1234"
      "9876543210" "A" "7" DELIVERED None 0 (Some 60000) (Some 120000) (Some 420000)
      (Some 420000) (Some 600000) None None (Some "valet-1") (Some "valet-2") 0 600000)
      = Some retrieval /\
    0 <= retrieval <= total.
Proof.
  apply (vehicle_durations_ordered _ 60000 420000 600000); [reflexivity..|lia].
Defined.

(** X6.  A vehicle overdue for retrieval at [now] is SCHEDULED, its
    retrieval time has been reached, and it stays overdue at every later
    time. *)
Theorem vehicle_overdue_monotone (now later : Z) (v : Vehicle.Vehicle) :
  Vehicle.isOverdueForRetrieval now v = true -> now <= later ->
  Vehicle.state v = SCHEDULED /\ Vehicle.isRetrievalTimeReached now v = true /\
  Vehicle.isOverdueForRetrieval later v = true.
Proof.
  unfold Vehicle.isOverdueForRetrieval, Vehicle.isRetrievalTimeReached.
  destruct (Vehicle.scheduledAt v) as [t|]; [|discriminate].
  destruct (Vehicle.state v) eqn:Hs; cbn; try discriminate.
  intros H Hl. apply Z.ltb_lt in H.
  split; [reflexivity|]. split; apply Z.leb_le || apply Z.ltb_lt; lia.
Qed.

Lemma vehicle_overdue_monotone_witness :
  Vehicle.isOverdueForRetrieval 600000 (Samples.vehicle_in SCHEDULED None) = true /\
  Vehicle.state (Samples.vehicle_in SCHEDULED None) = SCHEDULED /\
  Vehicle.isRetrievalTimeReached 600000 (Samples.vehicle_in SCHEDULED None) = true /\
  Vehicle.isOverdueForRetrieval 900000 (Samples.vehicle_in SCHEDULED None) = true.
Proof.
  assert (H : Vehicle.isOverdueForRetrieval 600000 (Samples.vehicle_in SCHEDULED None) = true)
    by reflexivity.
  split; [exact H|]. apply (vehicle_overdue_monotone 600000 900000 _ H). lia.
Defined.

(** X7. Whatever sequence of calls a valet receives (failed calls leave it
    unchanged), its counters stay within [0 <= assignmentSequence <=
    totalCount] and [0 <= todayCount <= totalCount], and [totalCount]
    never decreases. *)
Theorem valet_counters_invariant (calls : list (Clock * Valet.Op)) (v : Valet.Valet) :
  0 <= Valet.assignmentSequence v <= Valet.totalCount v ->
  0 <= Valet.todayCount v <= Valet.totalCount v ->
  let v' := Valet.run_ops calls v in
  0 <= Valet.assignmentSequence v' <= Valet.totalCount v' /\
  0 <= Valet.todayCount v' <= Valet.totalCount v' /\
  Valet.totalCount v <= Valet.totalCount v'.
Proof.
  revert v. induction calls as [|[c o] rest IH]; intros v Hs Ht; cbn [Valet.run_ops].
  - lia.
  - pose proof (ValetCounterFacts.run_op_counters c o v) as Hc. cbn zeta in Hc.
    set (w := fst (Valet.run_op c o v)) in *.
    assert (Hw : 0 <= Valet.assignmentSequence w <= Valet.totalCount w /\
                 0 <= Valet.todayCount w <= Valet.totalCount w /\
                 Valet.totalCount v <= Valet.totalCount w) by lia.
    destruct Hw as [Hws [Hwt Hwv]].
    destruct (IH w Hws Hwt) as [H1 [H2 H3]]. lia.
Qed.

Lemma valet_counters_invariant_witness :
  (0 <= Valet.assignmentSequence Samples.busy_valet <= Valet.totalCount Samples.busy_valet /\
   0 <= Valet.todayCount Samples.busy_valet <= Valet.totalCount Samples.busy_valet) /\
  let v' := Valet.run_ops [(Samples.clock0, Valet.OpCompleteTask);
                           (Samples.clock0, Valet.OpAssignTask);
                           (Samples.clock0, Valet.OpResetDailyCounters)] Samples.busy_valet in
  0 <= Valet.assignmentSequence v' <= Valet.totalCount v' /\
  0 <= Valet.todayCount v' <= Valet.totalCount v' /\
  Valet.totalCount Samples.busy_valet <= Valet.totalCount v'.
Proof.
  split; [cbn; lia|].
  apply valet_counters_invariant; cbn; lia.
Defined.

(** X8. A valet that is not BUSY becomes BUSY through one call only when
    that call is [assignTask] and [canBeAssigned] held: its sequence, daily
    and total counts then go up by one and [updatedAt] is the clock. *)
Theorem valet_busy_only_by_assignTask (c : Clock) (o : Valet.Op) (v : Valet.Valet) :
  Valet.status v <> BUSY -> Valet.status (fst (Valet.run_op c o v)) = BUSY ->
  o = Valet.OpAssignTask /\ Valet.canBeAssigned c v = true /\
  fst (Valet.run_op c o v) =
    Valet.set_updatedAt (Valet.set_totalCount (Valet.set_todayCount
      (Valet.set_assignmentSequence (Valet.set_status v BUSY)
        (Valet.assignmentSequence v + 1)) (Valet.todayCount v + 1))
      (Valet.totalCount v + 1)) (nowMs c).
Proof. exact (ValetCounterFacts.run_op_busy_entry c o v). Qed.

Lemma valet_busy_only_by_assignTask_witness :
  let v := Samples.free_valet "valet-1" None in
  (Valet.status v <> BUSY /\
   Valet.status (fst (Valet.run_op Samples.clock0 Valet.OpAssignTask v)) = BUSY) /\
  Valet.OpAssignTask = Valet.OpAssignTask /\ Valet.canBeAssigned Samples.clock0 v = true /\
  fst (Valet.run_op Samples.clock0 Valet.OpAssignTask v) =
    Valet.set_updatedAt (Valet.set_totalCount (Valet.set_todayCount
      (Valet.set_assignmentSequence (Valet.set_status v BUSY)
        (Valet.assignmentSequence v + 1)) (Valet.todayCount v + 1))
      (Valet.totalCount v + 1)) (nowMs Samples.clock0).
Proof.
  cbv zeta. split; [split; [discriminate|reflexivity]|].
  apply valet_busy_only_by_assignTask; [discriminate|reflexivity].
Defined.

(** X9. With no active valet, [getAssignmentStats] reports 0 valets, no
    average ([NaN]), [minCount = Infinity], [maxCount = -Infinity],
    [variance = -Infinity], and [isBalanced = true]. *)
Theorem stats_no_active_valet (table : list Valet.Valet) :
  (forall v, In v table -> Valet.isActive v = false) ->
  let s := RoundRobin.getAssignmentStats table in
  RoundRobin.totalValets s = 0 /\ RoundRobin.freeValets s = 0 /\
  RoundRobin.busyValets s = 0 /\ RoundRobin.onBreak s = 0 /\
  RoundRobin.avgCountTenths s = None /\ RoundRobin.minCount s = RoundRobin.PosInf /\
  RoundRobin.maxCount s = RoundRobin.NegInf /\ RoundRobin.variance s = RoundRobin.NegInf /\
  RoundRobin.isBalanced s = true.
Proof.
  intros H. unfold RoundRobin.getAssignmentStats.
  assert (E : ValetRepository.findActive table = []).
  { unfold ValetRepository.findActive.
    destruct (filter _ table) as [|x r] eqn:Ef; [reflexivity|].
    assert (Hx : In x (filter Valet.isActive table)) by (rewrite Ef; now left).
    apply filter_In in Hx. destruct Hx as [Hin Ha]. rewrite (H x Hin) in Ha. discriminate. }
  rewrite E. cbn. repeat split.
Qed.

Lemma stats_no_active_valet_witness :
  let t := [Valet.mkValet "valet-9" "Anu" "9000000009" OFF_DUTY 3 2 9 None None None false 0 0] in
  (forall v, In v t -> Valet.isActive v = false) /\
  let s := RoundRobin.getAssignmentStats t in
  RoundRobin.totalValets s = 0 /\ RoundRobin.freeValets s = 0 /\
  RoundRobin.busyValets s = 0 /\ RoundRobin.onBreak s = 0 /\
  RoundRobin.avgCountTenths s = None /\ RoundRobin.minCount s = RoundRobin.PosInf /\
  RoundRobin.maxCount s = RoundRobin.NegInf /\ RoundRobin.variance s = RoundRobin.NegInf /\
  RoundRobin.isBalanced s = true.
Proof.
  cbv zeta. split.
  - intros v [<-|[]]. reflexivity.
  - apply stats_no_active_valet. intros v [<-|[]]. reflexivity.
Defined.

(** X10. [getAssignmentStats]: the FREE, BUSY and BREAK counts add up to at
    most [totalValets]; with at least one active valet, [minCount] and
    [maxCount] are finite bounds [lo <= hi] of the daily counts, the
    average in tenths lies in [[10 lo, 10 hi]], [variance = hi - lo], and
    [isBalanced] holds exactly when [hi - lo <= 2]. *)
Theorem stats_bounds (table : list Valet.Valet) :
  let s := RoundRobin.getAssignmentStats table in
  RoundRobin.freeValets s + RoundRobin.busyValets s + RoundRobin.onBreak s
    <= RoundRobin.totalValets s /\
  (0 < RoundRobin.totalValets s ->
   exists lo hi a,
     RoundRobin.minCount s = RoundRobin.Fin lo /\ RoundRobin.maxCount s = RoundRobin.Fin hi /\
     lo <= hi /\
     (forall v, In v (ValetRepository.findActive table) ->
        lo <= Valet.todayCount v <= hi) /\
     RoundRobin.avgCountTenths s = Some a /\ 10 * lo <= a <= 10 * hi /\
     RoundRobin.variance s = RoundRobin.Fin (hi - lo) /\
     RoundRobin.isBalanced s = (hi - lo <=? 2)).
Proof.
  unfold RoundRobin.getAssignmentStats. cbv zeta. cbn [RoundRobin.totalValets
    RoundRobin.freeValets RoundRobin.busyValets RoundRobin.onBreak
    RoundRobin.minCount RoundRobin.maxCount RoundRobin.avgCountTenths
    RoundRobin.variance RoundRobin.isBalanced].
  set (l := ValetRepository.findActive table).
  split; [apply StatsFacts.count_three_le|].
  intros Hpos. destruct l as [|x r] eqn:El; [cbn in Hpos; lia|].
  set (lo := fold_left Z.min (map Valet.todayCount r) (Valet.todayCount x)).
  set (hi := fold_left Z.max (map Valet.todayCount r) (Valet.todayCount x)).
  assert (Hb : forall y, In y (map Valet.todayCount (x :: r)) -> lo <= y <= hi).
  { intros y Hy. cbn [map] in Hy. split.
    - apply StatsFacts.fold_min_le; exact Hy.
    - apply StatsFacts.fold_max_ge; exact Hy. }
  assert (Hlh : lo <= hi) by (pose proof (Hb (Valet.todayCount x) (or_introl eq_refl)); lia).
  set (n := Z.of_nat (length (x :: r))).
  assert (Hn : 0 < n) by (unfold n; cbn [length]; lia).
  assert (Hlen : Z.of_nat (length (map Valet.todayCount (x :: r))) = n)
    by (unfold n; now rewrite length_map).
  pose proof (StatsFacts.sum_bounds _ 0 lo hi Hb) as Hs. rewrite Hlen in Hs.
  set (sm := fold_left Z.add (map Valet.todayCount (x :: r)) 0) in *.
  exists lo, hi, ((20 * sm + n) / (2 * n)).
  cbn [RoundRobin.js_min RoundRobin.js_max map RoundRobin.js_sub RoundRobin.js_le].
  fold lo hi. fold n.
  split; [reflexivity|]. split; [reflexivity|]. split; [exact Hlh|].
  split.
  { intros v Hv. apply Hb. apply in_map. exact Hv. }
  split.
  { destruct (n =? 0) eqn:E0; [lia|]. reflexivity. }
  split; [|split; reflexivity].
  split.
  - apply Z.div_le_lower_bound; nia.
  - assert (10 * hi < 10 * hi + 1) by lia.
    enough ((20 * sm + n) / (2 * n) < 10 * hi + 1) by lia.
    apply Z.div_lt_upper_bound; nia.
Qed.

(** X11. [resetDailyCounters] (the use case) writes every valet row back
    with [assignmentSequence = 0], [todayCount = 0] and [updatedAt] the
    clock, everything else unchanged, and succeeds, provided valet ids are
    unique. *)
Theorem reset_all_valets (c : Clock) (table : list Valet.Valet) :
  NoDup (map Valet.id table) ->
  RoundRobin.resetDailyCounters c table =
  (map (fun w => Valet.set_updatedAt (Valet.set_todayCount
                   (Valet.set_assignmentSequence w 0) 0) (nowMs c)) table, Ok tt).
Proof.
  intros Hn.
  change (RoundRobin.resetDailyCounters c table) with
    (RoundRobin.reset_each c (ValetRepository.findAll table) table).
  pose proof (DailyResetFacts.findAll_perm table) as Hp.
  rewrite DailyResetFacts.reset_each_eq.
  - f_equal. apply map_ext_in. intros w Hw.
    rewrite DailyResetFacts.touched_true.
    + destruct w; reflexivity.
    + apply (Permutation_in w (Permutation_sym Hp) Hw).
  - exact Hn.
  - apply (Permutation_NoDup (Permutation_map Valet.id (Permutation_sym Hp)) Hn).
  - intros u Hu. exact (Permutation_in u Hp Hu).
Qed.

Lemma reset_all_valets_witness :
  let t := [Samples.busy_valet; Samples.free_valet "valet-2" None] in
  NoDup (map Valet.id t) /\
  RoundRobin.resetDailyCounters Samples.clock0 t =
  (map (fun w => Valet.set_updatedAt (Valet.set_todayCount
                   (Valet.set_assignmentSequence w 0) 0) (nowMs Samples.clock0)) t, Ok tt).
Proof.
  cbv zeta.
  assert (Hn : NoDup (map Valet.id [Samples.busy_valet; Samples.free_valet "valet-2" None])).
  { cbn. constructor; [cbn; intros [H|[]]; discriminate|].
    constructor; [intros []|constructor]. }
  split; [exact Hn|]. apply reset_all_valets. exact Hn.
Defined.

(** X12. [reassignFromValet] for a valet that exists and is not FREE: in
    the resulting table, success or not, the rows with that id carry its
    status and its counters decreased by one but not below 0
    ([assignmentSequence] and [todayCount]), and the valet returned on
    success is another one. *)
Theorem reassign_from_unavailable_valet (c : Clock) (valetId : string)
  (t : RoundRobin.AssignmentType) (table : list Valet.Valet) (cur : Valet.Valet) :
  ValetRepository.findById table valetId = Some cur -> Valet.status cur <> FREE ->
  let (table', r) := RoundRobin.reassignFromValet c valetId t table in
  (forall u, In u table' -> Valet.id u = valetId ->
     Valet.status u = Valet.status cur /\
     Valet.assignmentSequence u = Z.max 0 (Valet.assignmentSequence cur - 1) /\
     Valet.todayCount u = Z.max 0 (Valet.todayCount cur - 1)) /\
  (forall sel, r = Ok sel -> Valet.id sel <> valetId).
Proof.
  intros Hf Hst.
  unfold ValetRepository.findById in Hf.
  destruct (find_some _ _ Hf) as [_ Hid]. apply String.eqb_eq in Hid.
  unfold RoundRobin.reassignFromValet, bind, get, modify. cbn beta iota.
  unfold ValetRepository.findById. rewrite Hf.
  set (cur' := Valet.set_assignmentSequence
                 (Valet.set_todayCount cur (Z.max 0 (Valet.todayCount cur - 1)))
                 (Z.max 0 (Valet.assignmentSequence
                   (Valet.set_todayCount cur (Z.max 0 (Valet.todayCount cur - 1))) - 1))).
  assert (Hc'id : Valet.id cur' = valetId) by (subst cur'; destruct cur; exact Hid).
  assert (Hc'st : Valet.status cur' = Valet.status cur) by (subst cur'; destruct cur; reflexivity).
  assert (Hc'sq : Valet.assignmentSequence cur' = Z.max 0 (Valet.assignmentSequence cur - 1))
    by (subst cur'; destruct cur; reflexivity).
  assert (Hc'td : Valet.todayCount cur' = Z.max 0 (Valet.todayCount cur - 1))
    by (subst cur'; destruct cur; reflexivity).
  set (t1 := ValetRepository.update c cur' table).
  (* the rows of [t1] with that id *)
  assert (Hrows : forall u, In u t1 -> Valet.id u = valetId ->
     Valet.status u = Valet.status cur /\
     Valet.assignmentSequence u = Z.max 0 (Valet.assignmentSequence cur - 1) /\
     Valet.todayCount u = Z.max 0 (Valet.todayCount cur - 1)).
  { intros u Hu Hu_id. destruct (RoundRobinFacts.in_update c cur' u table Hu)
      as [w [_ [[Hne ->]|(_ & _ & _ & _ & _ & Hs & Hq & Ht)]]].
    - exfalso. apply Hne. congruence.
    - rewrite Hs, Hq, Ht. auto. }
  assert (Hnot : forall u, In u t1 -> Valet.canBeAssigned c u = true -> Valet.id u <> valetId).
  { intros u Hu Hcu Hu_id. apply Hst.
    rewrite <- (proj1 (Hrows u Hu Hu_id)). exact (ReassignFacts.canBeAssigned_free c u Hcu). }
  pose proof (RoundRobinFacts.execute_cases c t t1) as H.
  destruct (RoundRobin.execute c t t1) as [table' [sel|e]].
  - destruct H as (v0 & Hin & Hel & _ & Hassign & Ht').
    rewrite (RoundRobinFacts.assignTask_ok c v0 Hel) in Hassign.
    injection Hassign as Hsel.
    assert (Hsid : Valet.id sel = Valet.id v0) by (subst sel; destruct v0; reflexivity).
    assert (Hv0 : Valet.id v0 <> valetId) by exact (Hnot v0 Hin Hel).
    split.
    + intros u Hu Hu_id. rewrite Ht' in Hu.
      destruct (RoundRobinFacts.in_update c sel u t1 Hu)
        as [w [Hw [[_ ->]|(Hwid & Huid & _)]]].
      * exact (Hrows w Hw Hu_id).
      * exfalso. apply Hv0. congruence.
    + intros s Hs. injection Hs as <-. congruence.
  - destruct H as [-> _]. split; [exact Hrows|]. intros s Hs; discriminate.
Qed.

Lemma reassign_from_unavailable_valet_witness :
  let table := [Samples.busy_valet; Samples.free_valet "valet-2" None] in
  (ValetRepository.findById table "valet-1" = Some Samples.busy_valet /\
   Valet.status Samples.busy_valet <> FREE) /\
  let (table', r) := RoundRobin.reassignFromValet Samples.clock0 "valet-1"
                       RoundRobin.PARKING_TASK table in
  (forall u, In u table' -> Valet.id u = "valet-1" ->
     Valet.status u = Valet.status Samples.busy_valet /\
     Valet.assignmentSequence u = Z.max 0 (Valet.assignmentSequence Samples.busy_valet - 1) /\
     Valet.todayCount u = Z.max 0 (Valet.todayCount Samples.busy_valet - 1)) /\
  (forall sel, r = Ok sel -> Valet.id sel <> "valet-1").
Proof.
  cbv zeta. split; [split; [reflexivity|discriminate]|].
  exact (reassign_from_unavailable_valet Samples.clock0 "valet-1" RoundRobin.PARKING_TASK
           [Samples.busy_valet; Samples.free_valet "valet-2" None] Samples.busy_valet
           eq_refl ltac:(discriminate)).
Defined.

(** X13. [MarkVehicleParkedUseCase.execute] writes at most two things: the
    state column of the vehicle rows with the given id, set to PARKED, and
    one valet row written back as FREE; the vehicle table is written only
    if it is, and a vehicle is returned only after both writes. *)
Theorem markParked_frame (c : Clock) (vid : string) (w : MarkVehicleParked.World) :
  let (w', r) := MarkVehicleParked.execute c vid w in
  (w' = w /\ exists e, r = inr e) \/
  (MarkVehicleParked.vehicles w' =
     MarkVehicleParked.updateState vid PARKED (MarkVehicleParked.vehicles w) /\
   ((MarkVehicleParked.valets w' = MarkVehicleParked.valets w /\ exists e, r = inr e) \/
    (exists valet' v', Valet.status valet' = FREE /\
       MarkVehicleParked.valets w' =
         ValetRepository.update c valet' (MarkVehicleParked.valets w) /\
       r = inl v' /\ Vehicle.state v' = PARKED /\ Vehicle.id v' = vid))).
Proof.
  unfold MarkVehicleParked.execute.
  destruct (MarkVehicleParked.findVehicleById _ vid) as [v|] eqn:Hf;
    [|left; split; [reflexivity|eexists; reflexivity]].
  pose proof (MarkParkedFacts.find_id _ _ _ Hf) as Hid.
  destruct (Vehicle.parkingValetId v) as [[|ch s]|];
    [left; split; [reflexivity|eexists; reflexivity]| |
     left; split; [reflexivity|eexists; reflexivity]].
  destruct (ValetRepository.findById _ _) as [valet|];
    [|left; split; [reflexivity|eexists; reflexivity]].
  destruct (Vehicle.markAsParked (nowMs c) v) as [v' [u|e]] eqn:Hm;
    [|left; split; [reflexivity|eexists; reflexivity]].
  destruct (MarkParkedFacts.markAsParked_result _ _ _ _ Hm) as (_ & Hst & Hid').
  rewrite Hst, Hid', Hid.
  destruct (Valet.completeTask c valet) as [valet' [u'|e']] eqn:Hc.
  - right. split; [reflexivity|]. right. exists valet', v'.
    split; [exact (MarkParkedFacts.completeTask_result _ _ _ _ Hc)|].
    split; [reflexivity|]. split; [reflexivity|]. split; [exact Hst|congruence].
  - right. split; [reflexivity|]. left. split; [reflexivity|eexists; reflexivity].
Qed.

(** X14. A vehicle found, in PARKING, with a non-empty parking valet id
    that exists but is not BUSY: [execute] fails on [completeTask] after
    the vehicle's new state PARKED has already been written; the valet
    table is untouched. *)
Theorem markParked_partial_commit (c : Clock) (vid pv : string)
  (w : MarkVehicleParked.World) (v : Vehicle.Vehicle) (valet : Valet.Valet) :
  MarkVehicleParked.findVehicleById (MarkVehicleParked.vehicles w) vid = Some v ->
  Vehicle.state v = PARKING -> Vehicle.parkingValetId v = Some pv -> pv <> EmptyString ->
  ValetRepository.findById (MarkVehicleParked.valets w) pv = Some valet ->
  Valet.status valet <> BUSY ->
  MarkVehicleParked.execute c vid w =
  (MarkVehicleParked.mkWorld
     (MarkVehicleParked.updateState vid PARKED (MarkVehicleParked.vehicles w))
     (MarkVehicleParked.valets w),
   inr (MarkVehicleParked.DomainError (CannotCompleteTask (Valet.status valet)))).
Proof.
  intros Hf Hs Hpv Hne Hv Hb. unfold MarkVehicleParked.execute.
  rewrite Hf, Hpv.
  destruct pv as [|ch s]; [congruence|]. rewrite Hv.
  rewrite (VehicleLifecycleFacts.markAsParked_ok (nowMs c) v (String ch s) Hs Hpv).
  rewrite (MarkParkedFacts.completeTask_not_busy c valet Hb).
  pose proof (MarkParkedFacts.find_id _ _ _ Hf) as Hid.
  destruct v; cbn in Hid; subst vid; reflexivity.
Qed.

(** X15. The same inputs with the valet BUSY: [execute] succeeds, stores
    state PARKED for the vehicle (only that column), writes the valet back
    as FREE with [updatedAt] the clock, and returns the vehicle [findById]
    read (through [toDomain]) with state PARKED and [parkedAt] and
    [updatedAt] the clock. *)
Theorem markParked_success (c : Clock) (vid pv : string)
  (w : MarkVehicleParked.World) (v : Vehicle.Vehicle) (valet : Valet.Valet) :
  MarkVehicleParked.findVehicleById (MarkVehicleParked.vehicles w) vid = Some v ->
  Vehicle.state v = PARKING -> Vehicle.parkingValetId v = Some pv -> pv <> EmptyString ->
  ValetRepository.findById (MarkVehicleParked.valets w) pv = Some valet ->
  Valet.status valet = BUSY ->
  MarkVehicleParked.execute c vid w =
  (MarkVehicleParked.mkWorld
     (MarkVehicleParked.updateState vid PARKED (MarkVehicleParked.vehicles w))
     (ValetRepository.update c (Valet.set_updatedAt (Valet.set_status valet FREE) (nowMs c))
        (MarkVehicleParked.valets w)),
   inl (Vehicle.set_updatedAt (Vehicle.set_parkedAt (Vehicle.set_state v PARKED)
          (Some (nowMs c))) (nowMs c))).
Proof.
  intros Hf Hs Hpv Hne Hv Hb. unfold MarkVehicleParked.execute.
  rewrite Hf, Hpv.
  destruct pv as [|ch s]; [congruence|]. rewrite Hv.
  rewrite (VehicleLifecycleFacts.markAsParked_ok (nowMs c) v (String ch s) Hs Hpv).
  rewrite (RoundRobinFacts.completeTask_ok c valet Hb).
  pose proof (MarkParkedFacts.find_id _ _ _ Hf) as Hid.
  destruct v; cbn in Hid; subst vid; reflexivity.
Qed.

(** X16. When the vehicle found is not in PARKING, [execute] changes
    nothing and reports an error. *)
Theorem markParked_wrong_state (c : Clock) (vid : string)
  (w : MarkVehicleParked.World) (v : Vehicle.Vehicle) :
  MarkVehicleParked.findVehicleById (MarkVehicleParked.vehicles w) vid = Some v ->
  Vehicle.state v <> PARKING ->
  exists e, MarkVehicleParked.execute c vid w = (w, inr e).
Proof.
  intros Hf Hs. unfold MarkVehicleParked.execute. rewrite Hf.
  destruct (Vehicle.parkingValetId v) as [[|ch s]|]; [eexists; reflexivity| |eexists; reflexivity].
  destruct (ValetRepository.findById _ _); [|eexists; reflexivity].
  rewrite (MarkParkedFacts.markAsParked_not_parking _ _ Hs). eexists; reflexivity.
Qed.

Lemma markParked_partial_commit_witness :
  let v := VehicleRows.toDomain (Samples.vehicle_row PARKING) in
  let valet := Samples.free_valet "valet-1" None in
  let w := MarkVehicleParked.mkWorld [Samples.vehicle_row PARKING] [valet] in
  (MarkVehicleParked.findVehicleById (MarkVehicleParked.vehicles w) "veh-1" = Some v /\
   Vehicle.state v = PARKING /\ Vehicle.parkingValetId v = Some "valet-1" /\
   "valet-1" <> EmptyString /\
   ValetRepository.findById (MarkVehicleParked.valets w) "valet-1" = Some valet /\
   Valet.status valet <> BUSY) /\
  MarkVehicleParked.execute Samples.clock0 "veh-1" w =
  (MarkVehicleParked.mkWorld
     (MarkVehicleParked.updateState "veh-1" PARKED (MarkVehicleParked.vehicles w))
     (MarkVehicleParked.valets w),
   inr (MarkVehicleParked.DomainError (CannotCompleteTask (Valet.status valet)))).
Proof.
  cbv zeta.
  split; [repeat split; try reflexivity; discriminate|].
  apply markParked_partial_commit with (pv := "valet-1")
    (v := VehicleRows.toDomain (Samples.vehicle_row PARKING)) (valet := Samples.free_valet "valet-1" None);
    [reflexivity|reflexivity|reflexivity|discriminate|reflexivity|discriminate].
Defined.

Lemma markParked_success_witness :
  let v := VehicleRows.toDomain (Samples.vehicle_row PARKING) in
  let w := MarkVehicleParked.mkWorld [Samples.vehicle_row PARKING] [Samples.busy_valet] in
  (MarkVehicleParked.findVehicleById (MarkVehicleParked.vehicles w) "veh-1" = Some v /\
   Vehicle.state v = PARKING /\ Vehicle.parkingValetId v = Some "valet-1" /\
   "valet-1" <> EmptyString /\
   ValetRepository.findById (MarkVehicleParked.valets w) "valet-1" = Some Samples.busy_valet /\
   Valet.status Samples.busy_valet = BUSY) /\
  MarkVehicleParked.execute Samples.clock0 "veh-1" w =
  (MarkVehicleParked.mkWorld
     (MarkVehicleParked.updateState "veh-1" PARKED (MarkVehicleParked.vehicles w))
     (ValetRepository.update Samples.clock0
        (Valet.set_updatedAt (Valet.set_status Samples.busy_valet FREE) (nowMs Samples.clock0))
        (MarkVehicleParked.valets w)),
   inl (Vehicle.set_updatedAt (Vehicle.set_parkedAt (Vehicle.set_state v PARKED)
          (Some (nowMs Samples.clock0))) (nowMs Samples.clock0))).
Proof.
  cbv zeta.
  split; [repeat split; try reflexivity; discriminate|].
  apply markParked_success with (pv := "valet-1") (v := VehicleRows.toDomain (Samples.vehicle_row PARKING));
    [reflexivity|reflexivity|reflexivity|discriminate|reflexivity|reflexivity].
Defined.

Lemma markParked_wrong_state_witness :
  let v := VehicleRows.toDomain (Samples.vehicle_row PARKED) in
  let w := MarkVehicleParked.mkWorld [Samples.vehicle_row PARKED] [Samples.busy_valet] in
  (MarkVehicleParked.findVehicleById (MarkVehicleParked.vehicles w) "veh-1" = Some v /\
   Vehicle.state v <> PARKING) /\
  exists e, MarkVehicleParked.execute Samples.clock0 "veh-1" w = (w, inr e).
Proof.
  cbv zeta. split; [split; [reflexivity|discriminate]|].
  apply markParked_wrong_state with (v := VehicleRows.toDomain (Samples.vehicle_row PARKED));
    [reflexivity|discriminate].
Defined.

(** X17. [normalizeVehicleNumber] removes every white-space character and
    upper-cases ASCII letters; its final [trim] never changes anything, and
    normalizing twice gives the same plate as normalizing once. *)
Theorem normalizeVehicleNumber_idempotent (s : string) :
  CreateEntry.normalizeVehicleNumber s = JsString.toUpperCase (JsString.strip_spaces s) /\
  JsString.all_chars (fun ch => negb (JsString.is_space ch))
    (CreateEntry.normalizeVehicleNumber s) = true /\
  JsString.toUpperCase (CreateEntry.normalizeVehicleNumber s) =
    CreateEntry.normalizeVehicleNumber s /\
  CreateEntry.normalizeVehicleNumber (CreateEntry.normalizeVehicleNumber s) =
    CreateEntry.normalizeVehicleNumber s.
Proof.
  rewrite !NormalizeFacts.normalize_eq.
  pose proof (NormalizeFacts.toUpperCase_non_space _
                (NormalizeFacts.strip_spaces_non_space s)) as Hn.
  split; [reflexivity|]. split; [exact Hn|].
  split; [apply NormalizeFacts.toUpperCase_idem|].
  unfold JsString.strip_spaces at 1.
  rewrite JsStringFacts.filter_chars_id by exact Hn.
  apply NormalizeFacts.toUpperCase_idem.
Qed.

(** X18. [findAvailableZone] returns [None] exactly when no zone has
    available slots and is active; otherwise it returns such a zone of the
    table with the least priority among them. *)
Theorem findAvailableZone_spec (table : list ParkingZone.ParkingZone) :
  match ParkingZoneRepository.findAvailableZone table with
  | None => forall z, In z table -> ParkingZone.hasAvailability z = false
  | Some z => In z table /\ ParkingZone.hasAvailability z = true /\
      forall z', In z' table -> ParkingZone.hasAvailability z' = true ->
        ParkingZone.priority z <= ParkingZone.priority z'
  end.
Proof. exact (ZoneFacts.findAvailableZone_cases table). Qed.

(** X19. [incrementAvailableSlots] and [decrementAvailableSlots] on the
    same zone id undo each other, in either order. *)
Theorem zone_increment_decrement_inverse (zoneId : string)
  (table : list ParkingZone.ParkingZone) :
  ParkingZoneRepository.decrementAvailableSlots zoneId
    (ParkingZoneRepository.incrementAvailableSlots zoneId table) = table /\
  ParkingZoneRepository.incrementAvailableSlots zoneId
    (ParkingZoneRepository.decrementAvailableSlots zoneId table) = table.
Proof.
  unfold ParkingZoneRepository.decrementAvailableSlots,
    ParkingZoneRepository.incrementAvailableSlots.
  rewrite !map_map. split; rewrite <- (map_id table) at 2; apply map_ext; intros z;
    destruct (String.eqb (ParkingZone.id z) zoneId) eqn:E;
    rewrite ?ZoneFacts.set_availableSlots_id, ?E; try reflexivity;
    rewrite ZoneFacts.set_availableSlots_twice, ZoneFacts.set_availableSlots_get;
    apply ZoneFacts.set_availableSlots_eq; lia.
Qed.

(** X20. A vehicle read back from its row by [toDomain] never has
    [parkedAt], [retrievalStartedAt], [deliveredAt] or [closedAt] set, so
    [getTotalDuration] and [getRetrievalDuration] are always [null] on it. *)
Theorem toDomain_durations_null (r : VehicleRows.VehicleRow) :
  Vehicle.getTotalDuration (VehicleRows.toDomain r) = None /\
  Vehicle.getRetrievalDuration (VehicleRows.toDomain r) = None /\
  Vehicle.parkedAt (VehicleRows.toDomain r) = None /\
  Vehicle.closedAt (VehicleRows.toDomain r) = None.
Proof. repeat split. Qed.

(** X21. For the roles ENTRY, EXIT and BILLING the auth middleware's
    [checkPermission] decides exactly as [StaffPermissions.hasPermission]. *)
Theorem checkPermission_agrees (r : StaffPermissions.StaffRole) (p : string) :
  r <> StaffPermissions.SUPERVISOR ->
  AuthMiddleware.checkPermission (StaffPermissions.role_name r) p =
    Some (StaffPermissions.hasPermission r p).
Proof.
  intros Hr. unfold AuthMiddleware.checkPermission.
  assert (E1 : AuthMiddleware.rolePermissions (StaffPermissions.role_name r) =
               AuthMiddleware.LSet (StaffPermissions.PERMISSIONS r))
    by (destruct r; [reflexivity|reflexivity|congruence|reflexivity]).
  assert (E2 : StaffPermissions.has (StaffPermissions.PERMISSIONS r) "*" = false)
    by (destruct r; [reflexivity|reflexivity|congruence|reflexivity]).
  rewrite E1, E2. clear E1 E2. unfold StaffPermissions.hasPermission. cbv zeta.
  destruct (StaffPermissions.has (StaffPermissions.PERMISSIONS r) p); [reflexivity|].
  cbn [orb].
  destruct (StaffPermissions.has (StaffPermissions.PERMISSIONS r)
              (String.append (StaffPermissions.split_first p) ".*")); reflexivity.
Qed.

Lemma checkPermission_agrees_witness :
  StaffPermissions.ENTRY <> StaffPermissions.SUPERVISOR /\
  AuthMiddleware.checkPermission (StaffPermissions.role_name StaffPermissions.ENTRY)
    "zone.view" = Some (StaffPermissions.hasPermission StaffPermissions.ENTRY "zone.view").
Proof. split; [discriminate|]. apply checkPermission_agrees. discriminate. Defined.

(** X22. For SUPERVISOR the two checks differ: the middleware grants every
    permission, while [hasPermission] grants exactly the permissions whose
    resource (the text before the first '.') is vehicle, valet, zone,
    staff, reports or markout. *)
Theorem supervisor_permissions (p : string) :
  AuthMiddleware.checkPermission "SUPERVISOR" p = Some true /\
  (StaffPermissions.hasPermission StaffPermissions.SUPERVISOR p = true <->
   In (StaffPermissions.split_first p)
      ["vehicle"; "valet"; "zone"; "staff"; "reports"; "markout"]).
Proof. split; [reflexivity|apply StaffFacts.supervisor_iff]. Qed.

(** X23. Every permission any role has, SUPERVISOR has too. *)
Theorem supervisor_dominates (r : StaffPermissions.StaffRole) (p : string) :
  StaffPermissions.hasPermission r p = true ->
  StaffPermissions.hasPermission StaffPermissions.SUPERVISOR p = true.
Proof.
  intros H. apply StaffFacts.supervisor_iff. exact (StaffFacts.hasPermission_resource r p H).
Qed.

Lemma supervisor_dominates_witness :
  StaffPermissions.hasPermission StaffPermissions.BILLING "markout.trigger" = true /\
  StaffPermissions.hasPermission StaffPermissions.SUPERVISOR "markout.trigger" = true.
Proof.
  split; [reflexivity|]. apply (supervisor_dominates StaffPermissions.BILLING). reflexivity.
Defined.

(** X24. The [ParkingZone] entity's own slot methods, which nothing in
    the code calls: for every zone with [0 <= availableSlots <= totalSlots]
    and every sequence of [occupySlot]/[releaseSlot] calls, [availableSlots] stays in
    [0, totalSlots]; [occupySlot] on a zone with no free slot throws 'No
    slots available' and [releaseSlot] on a zone with every slot free throws
    'All slots already free', both leaving the zone unchanged. *)
Theorem zone_slots_bounded (ops : list ParkingZone.Op) (z : ParkingZone.ParkingZone) :
  0 <= ParkingZone.availableSlots z <= ParkingZone.totalSlots z ->
  0 <= ParkingZone.availableSlots (ParkingZone.run_ops ops z)
    <= ParkingZone.totalSlots (ParkingZone.run_ops ops z)
  /\ (forall z0, ParkingZone.availableSlots z0 = 0 ->
        ParkingZone.occupySlot z0 = (z0, Throw NoSlotsAvailable))
  /\ (forall z0, ParkingZone.availableSlots z0 = ParkingZone.totalSlots z0 ->
        ParkingZone.releaseSlot z0 = (z0, Throw AllSlotsAlreadyFree)).
Proof.
  intros Hz. split; [|split].
  - revert z Hz. induction ops as [|o ops IH]; intros z Hz; [exact Hz|].
    cbn [ParkingZone.run_ops]. apply IH.
    destruct z as [a b tot av e f g h i j]; cbn in Hz |- *.
    destruct o; cbn.
    + destruct (av <=? 0) eqn:E; cbn; [lia|]. apply Z.leb_gt in E. lia.
    + destruct (tot <=? av) eqn:E; cbn; [lia|]. apply Z.leb_gt in E. lia.
  - intros z0 H0. destruct z0 as [a b tot av e f g h i j]; cbn in H0 |- *.
    subst av. reflexivity.
  - intros z0 H0. destruct z0 as [a b tot av e f g h i j]; cbn in H0 |- *.
    subst av. rewrite Z.leb_refl. reflexivity.
Qed.

Lemma zone_slots_bounded_witness :
  (0 <= ParkingZone.availableSlots (Samples.zone_a 1)
     <= ParkingZone.totalSlots (Samples.zone_a 1))
  /\ (let ops := [ParkingZone.OpOccupySlot; ParkingZone.OpOccupySlot;
                  ParkingZone.OpReleaseSlot; ParkingZone.OpReleaseSlot;
                  ParkingZone.OpReleaseSlot] in
      0 <= ParkingZone.availableSlots (ParkingZone.run_ops ops (Samples.zone_a 1))
        <= ParkingZone.totalSlots (ParkingZone.run_ops ops (Samples.zone_a 1))).
Proof.
  assert (H : 0 <= ParkingZone.availableSlots (Samples.zone_a 1)
                <= ParkingZone.totalSlots (Samples.zone_a 1)) by (cbn; lia).
  split; [exact H|].
  exact (proj1 (zone_slots_bounded _ (Samples.zone_a 1) H)).
Defined.

(** X25. The role helpers: only ENTRY and SUPERVISOR can create vehicle
    entries, only EXIT and SUPERVISOR can mark vehicles delivered, only
    BILLING and SUPERVISOR can trigger mark-outs, and exactly the
    supervisors can access reports. *)
Theorem role_capabilities (r : StaffPermissions.StaffRole) :
  (StaffPermissions.canCreateVehicleEntry r = true <->
     r = StaffPermissions.ENTRY \/ r = StaffPermissions.SUPERVISOR) /\
  (StaffPermissions.canMarkDelivered r = true <->
     r = StaffPermissions.EXIT \/ r = StaffPermissions.SUPERVISOR) /\
  (StaffPermissions.canTriggerMarkOut r = true <->
     r = StaffPermissions.BILLING \/ r = StaffPermissions.SUPERVISOR) /\
  StaffPermissions.canAccessReports r = StaffPermissions.isSupervisor r.
Proof.
  destruct r; cbn; repeat split; try reflexivity; intuition discriminate.
Qed.

(** X26. A successful [createEntry]: the zone is the one [findAvailableZone]
    picks and loses one available slot; the response names its code; one
    row is appended, in state PARKING, with the normalized plate, the phone
    as its digits only (a valid 10-digit mobile number), and as parking
    valet the returned valet, which is stored BUSY. *)
Theorem createEntry_success_effects (e : CreateEntry.Entropy)
  (dto : CreateEntry.CreateVehicleEntryDTO) (w w' : CreateEntry.World)
  (resp : CreateEntry.VehicleEntryResponse) :
  CreateEntry.execute e dto w = (w', Ok resp) ->
  let row := CreateEntry.resp_vehicle resp in
  exists zone sel,
    ParkingZoneRepository.findAvailableZone (CreateEntry.zones w) = Some zone /\
    CreateEntry.zones w' =
      ParkingZoneRepository.decrementAvailableSlots (ParkingZone.id zone) (CreateEntry.zones w) /\
    CreateEntry.resp_zone resp = ParkingZone.zoneCode zone /\
    CreateEntry.vehicles w' = (CreateEntry.vehicles w ++ [row])%list /\
    Vehicle.state row = PARKING /\
    Vehicle.vehicleNumber row = CreateEntry.normalizeVehicleNumber (CreateEntry.dto_vehicleNumber dto) /\
    Vehicle.customerPhone row = JsString.strip_non_digits (CreateEntry.dto_customerPhone dto) /\
    CreateEntry.phoneRegexTest (Vehicle.customerPhone row) = true /\
    Vehicle.parkingValetId row = Some (CreateEntry.resp_valetId resp) /\
    In sel (CreateEntry.valets w') /\ Valet.id sel = CreateEntry.resp_valetId resp /\
    Valet.status sel = BUSY.
Proof.
  rewrite CreateEntryFacts.execute_eq.
  destruct (CreateEntry.validateInput dto) eqn:Hv; [discriminate|].
  destruct (CreateEntry.checkDuplicateEntry w _); [discriminate|].
  destruct (ParkingZoneRepository.findAvailableZone (CreateEntry.zones w)) as [zone|];
    [|discriminate].
  destruct (RoundRobin.execute _ _ _) as [vs [v|err]] eqn:Hx; [|discriminate].
  intros H. injection H as <- <-. cbv zeta.
  pose proof (EntryFacts.validateInput_phone dto Hv) as Hp.
  destruct (EntryFacts.selected_stored_busy _ _ _ _ Hx) as (u & Hu & Huid & Hust).
  exists zone, u. cbn.
  rewrite (EntryFacts.normalizePhone_valid _ Hp).
  repeat split; auto.
Qed.

Lemma createEntry_success_effects_witness :
  exists w' resp,
    CreateEntry.execute (Samples.entropy 789 7 "row-1")
      (Samples.entry_dto "kl07 ab1234" "98765 43210") Samples.world0 = (w', Ok resp) /\
    let row := CreateEntry.resp_vehicle resp in
    exists zone sel,
      ParkingZoneRepository.findAvailableZone (CreateEntry.zones Samples.world0) = Some zone /\
      CreateEntry.zones w' =
        ParkingZoneRepository.decrementAvailableSlots (ParkingZone.id zone)
          (CreateEntry.zones Samples.world0) /\
      CreateEntry.resp_zone resp = ParkingZone.zoneCode zone /\
      CreateEntry.vehicles w' = (CreateEntry.vehicles Samples.world0 ++ [row])%list /\
      Vehicle.state row = PARKING /\
      Vehicle.vehicleNumber row = CreateEntry.normalizeVehicleNumber "kl07 ab1234" /\
      Vehicle.customerPhone row = JsString.strip_non_digits "98765 43210" /\
      CreateEntry.phoneRegexTest (Vehicle.customerPhone row) = true /\
      Vehicle.parkingValetId row = Some (CreateEntry.resp_valetId resp) /\
      In sel (CreateEntry.valets w') /\ Valet.id sel = CreateEntry.resp_valetId resp /\
      Valet.status sel = BUSY.
Proof.
  destruct (CreateEntry.execute (Samples.entropy 789 7 "row-1")
              (Samples.entry_dto "kl07 ab1234" "98765 43210") Samples.world0)
    as [w' [resp|err]] eqn:H.
  - exists w', resp. split; [reflexivity|].
    exact (createEntry_success_effects _ _ _ _ _ H).
  - vm_compute in H. discriminate H.
Defined.



(** X28. With unique zone ids, [createEntry] never drives a zone's
    [availableSlots] below 0: if all are non-negative before, they are
    after, whatever the outcome. *)
Theorem createEntry_slots_nonneg (e : CreateEntry.Entropy)
  (dto : CreateEntry.CreateVehicleEntryDTO) (w : CreateEntry.World) :
  NoDup (map ParkingZone.id (CreateEntry.zones w)) ->
  (forall z, In z (CreateEntry.zones w) -> 0 <= ParkingZone.availableSlots z) ->
  forall z, In z (CreateEntry.zones (fst (CreateEntry.execute e dto w))) ->
    0 <= ParkingZone.availableSlots z.
Proof.
  intros Hn Hz. rewrite CreateEntryFacts.execute_eq.
  destruct (CreateEntry.validateInput dto); [exact Hz|].
  destruct (CreateEntry.checkDuplicateEntry w _); [exact Hz|].
  pose proof (ZoneFacts.findAvailableZone_cases (CreateEntry.zones w)) as C.
  destruct (ParkingZoneRepository.findAvailableZone (CreateEntry.zones w)) as [zone|];
    [|exact Hz].
  destruct C as (Hin & Ha & _).
  destruct (RoundRobin.execute _ _ _) as [vs [v|er]]; [|exact Hz].
  cbn [fst CreateEntry.zones]. intros z Hz'.
  unfold ParkingZoneRepository.decrementAvailableSlots in Hz'.
  apply in_map_iff in Hz' as [z0 [<- Hz0]].
  destruct (String.eqb (ParkingZone.id z0) (ParkingZone.id zone)) eqn:E; [|exact (Hz z0 Hz0)].
  apply String.eqb_eq in E.
  rewrite (DailyResetFacts.nodup_map_inj _ _ z0 zone Hn Hz0 Hin E).
  rewrite ZoneFacts.set_availableSlots_get.
  unfold ParkingZone.hasAvailability in Ha. apply andb_prop in Ha as [Ha _].
  apply Z.ltb_lt in Ha. lia.
Qed.

Lemma createEntry_slots_nonneg_witness :
  (NoDup (map ParkingZone.id (CreateEntry.zones Samples.world0)) /\
   (forall z, In z (CreateEntry.zones Samples.world0) -> 0 <= ParkingZone.availableSlots z)) /\
  forall z, In z (CreateEntry.zones (fst (CreateEntry.execute (Samples.entropy 789 7 "row-1")
                    (Samples.entry_dto "kl07 ab1234" "9876543210") Samples.world0))) ->
    0 <= ParkingZone.availableSlots z.
Proof.
  assert (Hn : NoDup (map ParkingZone.id (CreateEntry.zones Samples.world0)))
    by (cbn; constructor; [intros []|constructor]).
  assert (Hz : forall z, In z (CreateEntry.zones Samples.world0) ->
                 0 <= ParkingZone.availableSlots z)
    by (cbn; intros z [<-|[]]; cbn; lia).
  split; [split; [exact Hn|exact Hz]|].
  exact (createEntry_slots_nonneg _ _ _ Hn Hz).
Defined.
